(** * Seller / market synchronisation scripts: a shallow embedding

    The development follows [seller.py] and [market.py].  Both scripts read
    a vendor stock feed (a list of row dictionaries), fetch the offer ids
    known to a marketplace through a paginated listing endpoint, and build
    stock and price update lists that are sent in batches.

    Python values that reach the code are modelled by [pyval]; strings are
    byte strings (the UTF-8 encoding of the Python text).  Exceptions are
    values of [exn] carried by [result].  Floating point cells are outside
    the model, as are the non-ASCII decimal digits and blanks that Python's
    [int] accepts, and the interpreter's configurable limit on the number
    of digits. *)

From Stdlib Require Import ZArith String Ascii List Lia DecimalString.
From Stdlib Require Import DecimalPos DecimalN DecimalZ.
From stdpp Require Import base tactics option list strings gmap.

Local Open Scope string_scope.
Local Open Scope list_scope.
Local Open Scope Z_scope.

(** ** Python values, exceptions and built-ins *)

Module Py.

Inductive pyval : Type :=
  | PNone
  | PBool (b : bool)
  | PInt (z : Z)
  | PStr (s : string).

#[export] Instance pyval_eq_dec : EqDecision pyval.
Proof. solve_decision. Defined.

Inductive exn : Type :=
  | ValueError
  | TypeError
  | AttributeError
  | IndexError
  | HTTPError
  | ReadTimeout
  | ConnectionError.

#[export] Instance exn_eq_dec : EqDecision exn.
Proof. solve_decision. Defined.

Inductive result (A : Type) : Type :=
  | Ok (a : A)
  | Raise (e : exn).
Arguments Ok {A} a.
Arguments Raise {A} e.

Definition rbind {A B} (r : result A) (k : A → result B) : result B :=
  match r with
  | Ok a => k a
  | Raise e => Raise e
  end.

(** [str(v)]. *)
Definition py_str (v : pyval) : string :=
  match v with
  | PNone => "None"
  | PBool true => "True"
  | PBool false => "False"
  | PInt z => NilZero.string_of_int (Z.to_int z)
  | PStr s => s
  end.

(** [a == b]; [True] and [False] compare equal to [1] and [0]. *)
Definition py_eq (a b : pyval) : bool :=
  match a, b with
  | PNone, PNone => true
  | PStr s, PStr t => String.eqb s t
  | PInt x, PInt y => Z.eqb x y
  | PBool x, PBool y => Bool.eqb x y
  | PBool x, PInt y | PInt y, PBool x => Z.eqb (Z.b2z x) y
  | _, _ => false
  end.

(** Truth value of a value, as tested by [if not v]. *)
Definition py_truthy (v : pyval) : bool :=
  match v with
  | PNone => false
  | PBool b => b
  | PInt z => negb (Z.eqb z 0)
  | PStr s => negb (String.eqb s "")
  end.

(** [x in l] on a list. *)
Definition py_in (x : pyval) (l : list pyval) : bool := existsb (py_eq x) l.

(** [l.remove(x)]: drops the first element equal to [x]; [ValueError]
    when there is none. *)
Fixpoint py_remove (x : pyval) (l : list pyval) : result (list pyval) :=
  match l with
  | [] => Raise ValueError
  | y :: l' =>
      if py_eq y x then Ok l'
      else rbind (py_remove x l') (λ r, Ok (y :: r))
  end.

(** [l[i]] for a non-negative index. *)
Definition py_index {A} (l : list A) (i : nat) : result A :=
  match l !! i with
  | Some a => Ok a
  | None => Raise IndexError
  end.

(** *** [int(...)] *)

Definition is_digit (a : ascii) : bool :=
  (48 <=? nat_of_ascii a)%nat && (nat_of_ascii a <=? 57)%nat.

Definition digit_val (a : ascii) : Z := Z.of_nat (nat_of_ascii a) - 48.

(** Blanks skipped by [int] around an ASCII literal: tab, line feed,
    vertical tab, form feed, carriage return and space. *)
Definition is_space (a : ascii) : bool :=
  ((9 <=? nat_of_ascii a)%nat && (nat_of_ascii a <=? 13)%nat)
  || (nat_of_ascii a =? 32)%nat.

Fixpoint lstrip (s : string) : string :=
  match s with
  | String a s' => if is_space a then lstrip s' else s
  | EmptyString => EmptyString
  end.

Fixpoint all_space (s : string) : bool :=
  match s with
  | String a s' => is_space a && all_space s'
  | EmptyString => true
  end.

Inductive scan : Type := AtStart | AfterDigit | AfterUnderscore.

(** The digits of a literal, single underscores allowed between two
    digits; what follows the digits may only be blanks. *)
Fixpoint int_digits (s : string) (acc : Z) (st : scan) : option Z :=
  match s with
  | String a s' =>
      if is_digit a then int_digits s' (acc * 10 + digit_val a) AfterDigit
      else if Ascii.eqb a "_" then
        match st with
        | AfterDigit => int_digits s' acc AfterUnderscore
        | _ => None
        end
      else
        match st with
        | AfterDigit => if all_space s then Some acc else None
        | _ => None
        end
  | EmptyString =>
      match st with
      | AfterDigit => Some acc
      | _ => None
      end
  end.

Definition int_of_string (s : string) : option Z :=
  match lstrip s with
  | String "-" s' => Z.opp <$> int_digits s' 0 AtStart
  | String "+" s' => int_digits s' 0 AtStart
  | s' => int_digits s' 0 AtStart
  end.

(** [int(v)]. *)
Definition py_int (v : pyval) : result Z :=
  match v with
  | PNone => Raise TypeError
  | PBool b => Ok (Z.b2z b)
  | PInt z => Ok z
  | PStr s =>
      match int_of_string s with
      | Some z => Ok z
      | None => Raise ValueError
      end
  end.

(** *** Strings *)

(** [s.split(sep)] for a one-character separator. *)
Fixpoint py_split (sep : ascii) (s : string) : list string :=
  match s with
  | EmptyString => [EmptyString]
  | String a s' =>
      if Ascii.eqb a sep then EmptyString :: py_split sep s'
      else
        match py_split sep s' with
        | p :: ps => String a p :: ps
        | [] => [String a EmptyString]
        end
  end.

(** [re.sub("[^0-9]", "", s)]. *)
Fixpoint re_sub_non_digits (s : string) : string :=
  match s with
  | EmptyString => EmptyString
  | String a s' =>
      if is_digit a then String a (re_sub_non_digits s')
      else re_sub_non_digits s'
  end.

(** *** Ranges and slices *)

(** [list(range(start, stop, step))]. *)
Definition py_range (start stop step : Z) : result (list Z) :=
  if step =? 0 then Raise ValueError
  else if 0 <? step then
    Ok (map (λ k, start + Z.of_nat k * step)
            (seq 0 (Z.to_nat ((stop - start + step - 1) / step))))
  else
    Ok (map (λ k, start + Z.of_nat k * step)
            (seq 0 (Z.to_nat ((start - stop - step - 1) / (- step))))).

(** [l[i:j]]: negative bounds count from the end, all bounds are clamped. *)
Definition py_slice {A} (l : list A) (i j : Z) : list A :=
  let len := Z.of_nat (length l) in
  let clamp k := if k <? 0 then Z.max (k + len) 0 else Z.min k len in
  take (Z.to_nat (clamp j - clamp i)) (drop (Z.to_nat (clamp i)) l).

End Py.

Export Py.

(** ** Helpers shared by both scripts ([seller.py]) *)

(** [price_conversion(price)]: [AttributeError] when [price] has no
    [split] method. *)
Definition price_conversion (price : pyval) : result string :=
  match price with
  | PStr s =>
      rbind (py_index (py_split "." s) 0) (λ part, Ok (re_sub_non_digits part))
  | _ => Raise AttributeError
  end.

(** [list(divide(lst, n))]: the chunks the generator yields. *)
Definition divide {A} (lst : list A) (n : Z) : result (list (list A)) :=
  rbind (py_range 0 (Z.of_nat (length lst)) n)
        (λ starts, Ok (map (λ i, py_slice lst i (i + n)) starts)).

(** ** Feed rows and the offer-id list *)

(** A row of the stock feed: a dictionary from column names to cells. *)
Abbreviation row := (gmap string pyval).

(** [d.get(key)]: [None] when the key is absent. *)
Definition get (d : row) (key : string) : pyval := default PNone (d !! key).

(** Code that works on the caller's [offer_ids] list: the list object is
    the state, so that what a callee removes is seen by the caller, also
    when the callee raises. *)
Module Ids.

Definition M (A : Type) : Type := list pyval → result A * list pyval.

Definition ret {A} (a : A) : M A := λ ids, (Ok a, ids).

Definition bind {A B} (m : M A) (k : A → M B) : M B :=
  λ ids,
    match m ids with
    | (Ok a, ids') => k a ids'
    | (Raise e, ids') => (Raise e, ids')
    end.

Definition lift {A} (r : result A) : M A := λ ids, (r, ids).

(** [x in offer_ids]. *)
Definition contains (x : pyval) : M bool := λ ids, (Ok (py_in x ids), ids).

(** [offer_ids.remove(x)]. *)
Definition remove (x : pyval) : M unit :=
  λ ids,
    match py_remove x ids with
    | Ok ids' => (Ok tt, ids')
    | Raise e => (Raise e, ids)
    end.

(** The elements a [for offer_id in offer_ids] loop visits. *)
Definition elements : M (list pyval) := λ ids, (Ok ids, ids).

End Ids.

Notation "'let*' x ':=' m 'in' k" := (Ids.bind m (λ x, k))
  (at level 10, x name, m at level 100, k at level 200, only parsing).
Notation "'do' m 'then' k" := (Ids.bind m (λ _, k))
  (at level 10, m at level 100, k at level 200, only parsing).

(** The quantity rule of both [create_stocks]: the cell is compared as a
    string with the two sentinels, otherwise converted with [int]. *)
Definition stock_of (watch : row) : result Z :=
  let count := py_str (get watch "Количество") in
  if String.eqb count ">10" then Ok 100
  else if String.eqb count "1" then Ok 0
  else py_int (get watch "Количество").

(** ** [seller.py] *)

Module Seller.

Record stock_entry : Type := mk_stock { offer_id : pyval; stock : Z }.

Record price_entry : Type := mk_price {
  auto_action_enabled : string;
  currency_code : string;
  price_offer_id : pyval;
  old_price : string;
  price : string }.

(** The first loop of [create_stocks]; [stocks] is the list built so far. *)
Fixpoint create_stocks_feed (watch_remnants : list row)
    (stocks : list stock_entry) : Ids.M (list stock_entry) :=
  match watch_remnants with
  | [] => Ids.ret stocks
  | watch :: rest =>
      let* known := Ids.contains (PStr (py_str (get watch "Код"))) in
      if (known : bool) then
        let* stock := Ids.lift (stock_of watch) in
        let stocks := stocks ++ [mk_stock (PStr (py_str (get watch "Код"))) stock] in
        do Ids.remove (PStr (py_str (get watch "Код"))) then
        create_stocks_feed rest stocks
      else create_stocks_feed rest stocks
  end.

Definition create_stocks (watch_remnants : list row) : Ids.M (list stock_entry) :=
  let* stocks := create_stocks_feed watch_remnants [] in
  let* offer_ids := Ids.elements in
  Ids.ret (foldl (λ stocks offer_id, stocks ++ [mk_stock offer_id 0])
                 stocks offer_ids).

Fixpoint create_prices_feed (watch_remnants : list row)
    (prices : list price_entry) : Ids.M (list price_entry) :=
  match watch_remnants with
  | [] => Ids.ret prices
  | watch :: rest =>
      let* known := Ids.contains (PStr (py_str (get watch "Код"))) in
      if (known : bool) then
        let* p := Ids.lift (price_conversion (get watch "Цена")) in
        create_prices_feed rest
          (prices ++ [mk_price "UNKNOWN" "RUB" (PStr (py_str (get watch "Код"))) "0" p])
      else create_prices_feed rest prices
  end.

Definition create_prices (watch_remnants : list row) : Ids.M (list price_entry) :=
  create_prices_feed watch_remnants [].

End Seller.

(** ** [market.py] *)

Module Market.

Record item : Type := mk_item { count : Z; type : string; updatedAt : string }.

Record stock_entry : Type := mk_stock {
  sku : pyval;
  warehouseId : pyval;
  items : list item }.

Record price_value : Type := mk_value { value : Z; currencyId : string }.

Record price_entry : Type := mk_price { id : pyval; price : price_value }.

(** [date] is the time stamp [create_stocks] reads from the clock once,
    before the loops. *)
Fixpoint create_stocks_feed (date : string) (warehouse_id : pyval)
    (watch_remnants : list row) (stocks : list stock_entry)
    : Ids.M (list stock_entry) :=
  match watch_remnants with
  | [] => Ids.ret stocks
  | watch :: rest =>
      let* known := Ids.contains (PStr (py_str (get watch "Код"))) in
      if (known : bool) then
        let* stock := Ids.lift (stock_of watch) in
        let stocks :=
          stocks ++ [mk_stock (PStr (py_str (get watch "Код"))) warehouse_id
                              [mk_item stock "FIT" date]] in
        do Ids.remove (PStr (py_str (get watch "Код"))) then
        create_stocks_feed date warehouse_id rest stocks
      else create_stocks_feed date warehouse_id rest stocks
  end.

Definition create_stocks (date : string) (watch_remnants : list row)
    (warehouse_id : pyval) : Ids.M (list stock_entry) :=
  let* stocks := create_stocks_feed date warehouse_id watch_remnants [] in
  let* offer_ids := Ids.elements in
  Ids.ret (foldl (λ stocks offer_id,
                    stocks ++ [mk_stock offer_id warehouse_id [mk_item 0 "FIT" date]])
                 stocks offer_ids).

Fixpoint create_prices_feed (watch_remnants : list row)
    (prices : list price_entry) : Ids.M (list price_entry) :=
  match watch_remnants with
  | [] => Ids.ret prices
  | watch :: rest =>
      let* known := Ids.contains (PStr (py_str (get watch "Код"))) in
      if (known : bool) then
        let* p := Ids.lift (price_conversion (get watch "Цена")) in
        let* v := Ids.lift (py_int (PStr p)) in
        create_prices_feed rest
          (prices ++ [mk_price (PStr (py_str (get watch "Код"))) (mk_value v "RUR")])
      else create_prices_feed rest prices
  end.

Definition create_prices (watch_remnants : list row) : Ids.M (list price_entry) :=
  create_prices_feed watch_remnants [].

End Market.

Definition mk_row (code quantity price : pyval) : row :=
  <["Код" := code]> (<["Количество" := quantity]> (<["Цена" := price]> ∅)).

(** ** Code that talks to the outside world

    A computation over a world of type [S] either runs out of [fuel]
    ([None]: it is still looping), or ends with a value or an exception and
    a new world. *)
Module Run.

Definition M (S A : Type) : Type := S → option (result A * S).

Definition ret {S A} (a : A) : M S A := λ s, Some (Ok a, s).

Definition bind {S A B} (m : M S A) (k : A → M S B) : M S B :=
  λ s,
    match m s with
    | Some (Ok a, s') => k a s'
    | Some (Raise e, s') => Some (Raise e, s')
    | None => None
    end.

Definition lift {S A} (r : result A) : M S A := λ s, Some (r, s).

(** A request to the outside: it answers or raises, and may change the
    world. *)
Definition call {S A} (h : S → result A * S) : M S A := λ s, Some (h s).

Definition looping {S A} : M S A := λ _, None.

(** [for x in l: f(x)]. *)
Fixpoint for_each {S A} (f : A → M S unit) (l : list A) : M S unit :=
  match l with
  | [] => ret tt
  | x :: l' => bind (f x) (λ _, for_each f l')
  end.

(** [try: m  except ...: h]; every exception of the model is caught. *)
Definition try_except {S A} (m : M S A) (h : exn → M S A) : M S A :=
  λ s,
    match m s with
    | Some (Raise e, s') => h e s'
    | r => r
    end.

End Run.

Notation "'run' x ':=' m 'in' k" := (Run.bind m (λ x, k))
  (at level 10, x name, m at level 100, k at level 200, only parsing).
Notation "'exec' m 'then' k" := (Run.bind m (λ _, k))
  (at level 10, m at level 100, k at level 200, only parsing).

(** [x.attr] or [x.method(...)] on a value that may be [None]. *)
Definition deref {A} (x : option A) : result A :=
  match x with
  | Some a => Ok a
  | None => Raise AttributeError
  end.

(** The argument of [list.extend] must be iterable. *)
Definition iterable {A} (x : option (list A)) : result (list A) :=
  match x with
  | Some l => Ok l
  | None => Raise TypeError
  end.

Module SellerApi.
Import Seller.

(** The value under ["result"] of a product-list response. *)
Record page : Type := mk_page {
  page_items : option (list row);
  page_total : pyval;
  page_last_id : pyval }.

(** What a run sends and prints, in order. *)
Inductive event : Type :=
  | Sent_stocks (batch : list stock_entry)
  | Sent_prices (batch : list price_entry)
  | Printed_timeout
  | Printed_error (e : exn) (tag : string).

Section Listing.
Context {S : Type}.
(** [get_product_list(last_id, client_id, seller_token)], the credentials
    being fixed: the answer of the listing endpoint. *)
Variable get_product_list : pyval → S → result (option page) * S.

Fixpoint get_offer_ids_loop (fuel : nat) (last_id : pyval)
    (product_list : list row) : Run.M S (list row) :=
  match fuel with
  | O => Run.looping
  | Datatypes.S fuel' =>
      run some_prod := Run.call (get_product_list last_id) in
      run some_prod := Run.lift (deref some_prod) in
      run new := Run.lift (iterable (page_items some_prod)) in
      let product_list := product_list ++ new in
      let total := page_total some_prod in
      let last_id := page_last_id some_prod in
      if py_eq total (PInt (Z.of_nat (length product_list)))
      then Run.ret product_list
      else get_offer_ids_loop fuel' last_id product_list
  end.

Definition get_offer_ids (fuel : nat) : Run.M S (list pyval) :=
  run product_list := get_offer_ids_loop fuel (PStr "") [] in
  Run.ret (foldl (λ offer_ids product, offer_ids ++ [get product "offer_id"])
                 [] product_list).

End Listing.

(** The collaborators of [main]: the three endpoints and the feed
    download, acting on a remote state [St]. *)
Record remote (St : Type) : Type := mk_remote {
  get_product_list : pyval → St → result (option page) * St;
  update_stocks : list stock_entry → St → result unit * St;
  update_price : list price_entry → St → result unit * St;
  download_stock : St → result (list row) * St }.
Arguments get_product_list {St}.
Arguments update_stocks {St}.
Arguments update_price {St}.
Arguments download_stock {St}.

Section Main.
Context {St : Type}.
Variable api : remote St.

(** The world of a run: the remote state and what was sent and printed. *)
Definition world : Type := St * list event.

Definition on_remote {A} (h : St → result A * St) : world → result A * world :=
  λ w, let '(r, st) := h w.1 in (r, (st, w.2)).

Definition emit (e : event) : Run.M world unit :=
  λ w, Some (Ok tt, (w.1, w.2 ++ [e])).

(** Runs code of [Ids.M] on the list object held in a local variable;
    gives the value and the list as the code left it. *)
Definition with_ids {A} (m : Ids.M A) (offer_ids : list pyval)
    : Run.M world (A * list pyval) :=
  match m offer_ids with
  | (Ok a, offer_ids') => Run.ret (a, offer_ids')
  | (Raise e, _) => Run.lift (Raise e)
  end.

(** The body of the [try] block of [main]; returns the locals [stocks]
    and [prices]. *)
Definition main_try (fuel : nat)
    : Run.M world (list stock_entry * list price_entry) :=
  run offer_ids := get_offer_ids (λ c, on_remote (get_product_list api c)) fuel in
  run watch_remnants := Run.call (on_remote (download_stock api)) in
  run r := with_ids (create_stocks watch_remnants) offer_ids in
  let stocks := r.1 in
  let offer_ids := r.2 in
  run batches := Run.lift (divide stocks 100) in
  exec Run.for_each (λ some_stock,
         exec emit (Sent_stocks some_stock) then
         Run.call (on_remote (update_stocks api some_stock))) batches then
  run r := with_ids (create_prices watch_remnants) offer_ids in
  let prices := r.1 in
  run batches := Run.lift (divide prices 900) in
  exec Run.for_each (λ some_price,
         exec emit (Sent_prices some_price) then
         Run.call (on_remote (update_price api some_price))) batches then
  Run.ret (stocks, prices).

Definition main (fuel : nat) : Run.M world unit :=
  Run.try_except
    (exec main_try fuel then Run.ret tt)
    (λ error,
       match error with
       | ReadTimeout => emit Printed_timeout
       | ConnectionError => emit (Printed_error error "Ошибка соединения")
       | _ => emit (Printed_error error "ERROR_2")
       end).

End Main.
End SellerApi.

Module MarketApi.

Record entry : Type := mk_entry { offer : option row }.

(** The value under ["result"] of an offer-mapping response. *)
Record page : Type := mk_page {
  offerMappingEntries : option (list entry);
  paging : option row }.

Section Listing.
Context {S : Type}.
Variable get_product_list : pyval → S → result (option page) * S.

Fixpoint get_offer_ids_loop (fuel : nat) (page : pyval)
    (product_list : list entry) : Run.M S (list entry) :=
  match fuel with
  | O => Run.looping
  | Datatypes.S fuel' =>
      run some_prod := Run.call (get_product_list page) in
      run some_prod := Run.lift (deref some_prod) in
      run new := Run.lift (iterable (offerMappingEntries some_prod)) in
      let product_list := product_list ++ new in
      run cursor := Run.lift (deref (paging some_prod)) in
      let page := get cursor "nextPageToken" in
      if negb (py_truthy page) then Run.ret product_list
      else get_offer_ids_loop fuel' page product_list
  end.

(** The second loop: [product.get("offer").get("shopSku")]. *)
Fixpoint shop_skus (product_list : list entry) (offer_ids : list pyval)
    : result (list pyval) :=
  match product_list with
  | [] => Ok offer_ids
  | product :: rest =>
      rbind (deref (offer product))
            (λ o, shop_skus rest (offer_ids ++ [get o "shopSku"]))
  end.

Definition get_offer_ids (fuel : nat) : Run.M S (list pyval) :=
  run product_list := get_offer_ids_loop fuel (PStr "") [] in
  Run.lift (shop_skus product_list []).

End Listing.
End MarketApi.

(** * Vocabulary of the properties *)

Definition has_period (s : string) : bool :=
  existsb (λ c, Ascii.eqb c ".") (list_ascii_of_string s).

(** The digits of a string, in order. *)
Definition digits_of (s : string) : string :=
  string_of_list_ascii (List.filter is_digit (list_ascii_of_string s)).

(** The id a row is matched by: [str(watch.get("Код"))]. *)
Definition code (watch : row) : pyval := PStr (py_str (get watch "Код")).

(** The list after [remove] when the element is there, the list itself
    otherwise. *)
Definition remove_first (x : pyval) (l : list pyval) : list pyval :=
  match py_remove x l with
  | Ok l' => l'
  | Raise _ => l
  end.

(** The rows the first loop of [create_stocks] matches, and the ids it
    leaves in the list. *)
Fixpoint matched (F : list row) (K : list pyval) : list row :=
  match F with
  | [] => []
  | w :: F' =>
      if py_in (code w) K then w :: matched F' (remove_first (code w) K)
      else matched F' K
  end.

Fixpoint remaining (F : list row) (K : list pyval) : list pyval :=
  match F with
  | [] => K
  | w :: F' =>
      if py_in (code w) K then remaining F' (remove_first (code w) K)
      else remaining F' K
  end.

Section ReconcilerDefs.
Context {E : Type} (entry : pyval → Z → E).

Fixpoint feed_pass (F : list row) (stocks : list E) : Ids.M (list E) :=
  match F with
  | [] => Ids.ret stocks
  | watch :: rest =>
      let* known := Ids.contains (code watch) in
      if (known : bool) then
        let* stock := Ids.lift (stock_of watch) in
        do Ids.remove (code watch) then
        feed_pass rest (stocks ++ [entry (code watch) stock])
      else feed_pass rest stocks
  end.

(** What the loop appends for a matched row. *)
Definition emitted (w : row) (s : E) : Prop :=
  ∃ q, stock_of w = Ok q ∧ s = entry (code w) q.

End ReconcilerDefs.

(** The scenario of the specification: three known ids, two feed rows. *)
Definition feed_ex : list row :=
  [mk_row (PStr "A") (PStr "5") (PStr "100.00 x");
   mk_row (PStr "B") (PStr ">10") (PStr "200.00 x")].

Definition ids_ex : list pyval := [PStr "A"; PStr "B"; PStr "C"].

Definition quantity_row (q : pyval) : row := <["Количество" := q]> ∅.

Definition seller_priced (w : row) (p : Seller.price_entry) : Prop :=
  ∃ s, price_conversion (get w "Цена") = Ok s
       ∧ p = Seller.mk_price "UNKNOWN" "RUB" (code w) "0" s.

Definition market_priced (w : row) (p : Market.price_entry) : Prop :=
  ∃ s v, price_conversion (get w "Цена") = Ok s ∧ py_int (PStr s) = Ok v
         ∧ p = Market.mk_price (code w) (Market.mk_value v "RUR").

(** A marketplace that lists [ids] on one page, serves the feed [F] and
    accepts every update. *)
Definition one_page_remote (ids : list pyval) (F : list row)
    : SellerApi.remote unit :=
  SellerApi.mk_remote unit
    (λ _ st, (Ok (Some (SellerApi.mk_page
                          (Some (map (λ id, <["offer_id" := id]> ∅) ids))
                          (PInt (Z.of_nat (length ids))) (PStr ""))), st))
    (λ _ st, (Ok tt, st))
    (λ _ st, (Ok tt, st))
    (λ st, (Ok F, st)).

Section MarketPagingDefs.
Context {S : Type}.
Variable h : pyval → S → result (option MarketApi.page) * S.

(** [market_pages c s pgs s']: asked from cursor [c] in state [s], the
    endpoint serves the pages [pgs], the last of which is the first with
    an empty next cursor, and is then in state [s']. *)
Inductive market_pages : pyval → S → list (list MarketApi.entry) → S → Prop :=
  | market_pages_last c s s' p its cur :
      h c s = (Ok (Some p), s') →
      MarketApi.offerMappingEntries p = Some its →
      MarketApi.paging p = Some cur →
      py_truthy (get cur "nextPageToken") = false →
      market_pages c s [its] s'
  | market_pages_next c s s' p its cur rest s'' :
      h c s = (Ok (Some p), s') →
      MarketApi.offerMappingEntries p = Some its →
      MarketApi.paging p = Some cur →
      py_truthy (get cur "nextPageToken") = true →
      market_pages (get cur "nextPageToken") s' rest s'' →
      market_pages c s (its :: rest) s''.

End MarketPagingDefs.

Section SellerPagingDefs.
Context {S : Type}.
Variable h : pyval → S → result (option SellerApi.page) * S.

(** [seller_pages c n s pgs s']: with [n] products collected so far, the
    endpoint serves the pages [pgs] from cursor [c], the last of which is
    the first whose [total] equals the number of products collected. *)
Inductive seller_pages : pyval → nat → S → list (list row) → S → Prop :=
  | seller_pages_last c n s s' p its :
      h c s = (Ok (Some p), s') →
      SellerApi.page_items p = Some its →
      py_eq (SellerApi.page_total p) (PInt (Z.of_nat (n + length its))) = true →
      seller_pages c n s [its] s'
  | seller_pages_next c n s s' p its rest s'' :
      h c s = (Ok (Some p), s') →
      SellerApi.page_items p = Some its →
      py_eq (SellerApi.page_total p) (PInt (Z.of_nat (n + length its))) = false →
      seller_pages (SellerApi.page_last_id p) (n + length its) s' rest s'' →
      seller_pages c n s (its :: rest) s''.

End SellerPagingDefs.

(** An offer-mapping endpoint that always answers with an empty page and
    the next cursor ["x"]. *)
Definition stuck_remote (c : pyval) (st : unit)
    : result (option MarketApi.page) * unit :=
  (Ok (Some (MarketApi.mk_page (Some [])
                               (Some (<["nextPageToken" := PStr "x"]> ∅)))), st).

(** Two pages: the first gives the cursor ["p2"], the second an empty
    one. *)
Definition two_page_remote (c : pyval) (st : unit)
    : result (option MarketApi.page) * unit :=
  let sku s := MarketApi.mk_entry (Some (<["shopSku" := PStr s]> ∅)) in
  if py_eq c (PStr "")
  then (Ok (Some (MarketApi.mk_page (Some [sku "A"; sku "B"])
                    (Some (<["nextPageToken" := PStr "p2"]> ∅)))), st)
  else (Ok (Some (MarketApi.mk_page (Some [sku "C"])
                    (Some (<["nextPageToken" := PStr ""]> ∅)))), st).

(** ** The upload coroutines of [seller.py] *)

Module SellerUpload.
Import Seller SellerApi.

Section Upload.
Context {St : Type}.
Variable api : remote St.

(** The body of [upload_prices(watch_remnants, client_id, seller_token)],
    as it runs when the coroutine is awaited. *)
Definition upload_prices (fuel : nat) (watch_remnants : list row)
    : Run.M (world (St:=St)) (list price_entry) :=
  run offer_ids := get_offer_ids (λ c, on_remote (get_product_list api c)) fuel in
  run r := with_ids (create_prices watch_remnants) offer_ids in
  let prices := r.1 in
  run batches := Run.lift (divide prices 1000) in
  exec Run.for_each (λ some_price,
         exec emit (Sent_prices some_price) then
         Run.call (on_remote (update_price api some_price))) batches then
  Run.ret prices.

(** The body of [upload_stocks(watch_remnants, client_id, seller_token)];
    returns the pair [(not_empty, stocks)]. *)
Definition upload_stocks (fuel : nat) (watch_remnants : list row)
    : Run.M (world (St:=St)) (list stock_entry * list stock_entry) :=
  run offer_ids := get_offer_ids (λ c, on_remote (get_product_list api c)) fuel in
  run r := with_ids (create_stocks watch_remnants) offer_ids in
  let stocks := r.1 in
  run batches := Run.lift (divide stocks 100) in
  exec Run.for_each (λ some_stock,
         exec emit (Sent_stocks some_stock) then
         Run.call (on_remote (update_stocks api some_stock))) batches then
  let not_empty := List.filter (λ entry, negb (stock entry =? 0)) stocks in
  Run.ret (not_empty, stocks).

End Upload.
End SellerUpload.

(** ** The run of [market.py] *)

Module MarketRun.
Import Market MarketApi.

(** What a run sends, to which campaign, and prints, in order. *)
Inductive event : Type :=
  | Sent_stocks (campaign_id : pyval) (batch : list stock_entry)
  | Sent_prices (campaign_id : pyval) (batch : list price_entry)
  | Printed_timeout
  | Printed_error (e : exn) (tag : string).

(** The collaborators: the three endpoints, which take the campaign id,
    the feed download of [seller.py], and the clock [create_stocks]
    reads its time stamp from. *)
Record remote (St : Type) : Type := mk_remote {
  get_product_list : pyval → pyval → St → result (option page) * St;
  update_stocks : list stock_entry → pyval → St → result unit * St;
  update_price : list price_entry → pyval → St → result unit * St;
  download_stock : St → result (list row) * St;
  utcnow : St → string * St }.
Arguments get_product_list {St}.
Arguments update_stocks {St}.
Arguments update_price {St}.
Arguments download_stock {St}.
Arguments utcnow {St}.

Section Main.
Context {St : Type}.
Variable api : remote St.
(** The values [main] reads from the environment. *)
Variables campaign_fbs_id campaign_dbs_id : pyval.
Variables warehouse_fbs_id warehouse_dbs_id : pyval.

Definition world : Type := St * list event.

Definition on_remote {A} (h : St → result A * St) : world → result A * world :=
  λ w, let '(r, st) := h w.1 in (r, (st, w.2)).

Definition emit (e : event) : Run.M world unit :=
  λ w, Some (Ok tt, (w.1, w.2 ++ [e])).

Definition with_ids {A} (m : Ids.M A) (offer_ids : list pyval)
    : Run.M world (A * list pyval) :=
  match m offer_ids with
  | (Ok a, offer_ids') => Run.ret (a, offer_ids')
  | (Raise e, _) => Run.lift (Raise e)
  end.

(** [create_stocks(watch_remnants, offer_ids, warehouse_id)] with its
    reading of the clock. *)
Definition create_stocks_now (watch_remnants : list row)
    (offer_ids : list pyval) (warehouse_id : pyval)
    : Run.M world (list stock_entry * list pyval) :=
  run date := Run.call (λ w, let '(d, st) := utcnow api w.1 in (Ok d, (st, w.2))) in
  with_ids (create_stocks date watch_remnants warehouse_id) offer_ids.

(** The body of [upload_prices(watch_remnants, campaign_id, market_token)],
    as it runs when the coroutine is awaited. *)
Definition upload_prices (fuel : nat) (watch_remnants : list row)
    (campaign_id : pyval) : Run.M world (list price_entry) :=
  run offer_ids :=
    get_offer_ids (λ c, on_remote (get_product_list api c campaign_id)) fuel in
  run r := with_ids (create_prices watch_remnants) offer_ids in
  let prices := r.1 in
  run batches := Run.lift (divide prices 500) in
  exec Run.for_each (λ some_prices,
         exec emit (Sent_prices campaign_id some_prices) then
         Run.call (on_remote (update_price api some_prices campaign_id)))
       batches then
  Run.ret prices.

(** [list(filter(f, l))] for a test that may raise. *)
Fixpoint py_filter {A} (f : A → result bool) (l : list A) : result (list A) :=
  match l with
  | [] => Ok []
  | x :: l' =>
      rbind (f x) (λ keep,
      rbind (py_filter f l') (λ r, Ok (if (keep : bool) then x :: r else r)))
  end.

(** The body of [upload_stocks]; returns the pair [(not_empty, stocks)]. *)
Definition upload_stocks (fuel : nat) (watch_remnants : list row)
    (campaign_id warehouse_id : pyval)
    : Run.M world (list stock_entry * list stock_entry) :=
  run offer_ids :=
    get_offer_ids (λ c, on_remote (get_product_list api c campaign_id)) fuel in
  run r := create_stocks_now watch_remnants offer_ids warehouse_id in
  let stocks := r.1 in
  run batches := Run.lift (divide stocks 2000) in
  exec Run.for_each (λ some_stock,
         exec emit (Sent_stocks campaign_id some_stock) then
         Run.call (on_remote (update_stocks api some_stock campaign_id)))
       batches then
  run not_empty :=
    Run.lift (py_filter (λ stock,
                rbind (py_index (items stock) 0)
                      (λ first, Ok (negb (count first =? 0)))) stocks) in
  Run.ret (not_empty, stocks).

(** One campaign in [main]: list the offers, build and send the stocks,
    then call [upload_prices] without awaiting it: the call only makes a
    coroutine object, whose body never runs. *)
Definition sync_campaign (fuel : nat) (watch_remnants : list row)
    (campaign_id warehouse_id : pyval) : Run.M world unit :=
  run offer_ids :=
    get_offer_ids (λ c, on_remote (get_product_list api c campaign_id)) fuel in
  run r := create_stocks_now watch_remnants offer_ids warehouse_id in
  let stocks := r.1 in
  run batches := Run.lift (divide stocks 2000) in
  exec Run.for_each (λ some_stock,
         exec emit (Sent_stocks campaign_id some_stock) then
         Run.call (on_remote (update_stocks api some_stock campaign_id)))
       batches then
  let coroutine := upload_prices fuel watch_remnants campaign_id in
  Run.ret tt.

(** [main], from the feed download on; the download is outside the
    [try]. *)
Definition main (fuel : nat) : Run.M world unit :=
  run watch_remnants := Run.call (on_remote (download_stock api)) in
  Run.try_except
    (exec sync_campaign fuel watch_remnants campaign_fbs_id warehouse_fbs_id then
     sync_campaign fuel watch_remnants campaign_dbs_id warehouse_dbs_id)
    (λ error,
       match error with
       | ReadTimeout => emit Printed_timeout
       | ConnectionError => emit (Printed_error error "Ошибка соединения")
       | _ => emit (Printed_error error "ERROR_2")
       end).

End Main.
End MarketRun.

(** A market remote that lists [ids] on one page for every campaign,
    serves the feed [F], accepts every update and always reads the same
    time. *)
Definition one_page_market (ids : list pyval) (F : list row)
    : MarketRun.remote unit :=
  MarketRun.mk_remote unit
    (λ _ _ st,
       (Ok (Some (MarketApi.mk_page
                    (Some (map (λ id, MarketApi.mk_entry
                                        (Some (<["shopSku" := id]> ∅))) ids))
                    (Some ∅))), st))
    (λ _ _ st, (Ok tt, st))
    (λ _ _ st, (Ok tt, st))
    (λ st, (Ok F, st))
    (λ st, ("now", st)).

(** The messages of the handlers of [main]. *)
Definition is_print (ev : SellerApi.event) : Prop :=
  ev = SellerApi.Printed_timeout ∨ ∃ e tag, ev = SellerApi.Printed_error e tag.


(** A product-list endpoint that always answers with no items, the
    total 5 and the cursor ["x"]. *)
Definition stuck_seller_remote (c : pyval) (st : unit)
    : result (option SellerApi.page) * unit :=
  (Ok (Some (SellerApi.mk_page (Some []) (PInt 5) (PStr "x"))), st).

(** The price the market's [create_prices] computes for a row:
    [int(price_conversion(watch.get("Цена")))]. *)
Definition market_price_of (w : row) : result Z :=
  rbind (price_conversion (get w "Цена")) (λ p, py_int (PStr p)).

(** * Properties *)

(** ** Examples *)

Example price_conversion_ex :
  price_conversion (PStr "5'990.00 руб.") = Ok "5990".
Proof. reflexivity. Qed.

Example int_ex : map int_of_string ["7"; " -1_0 "; "1__0"; ""; "+"; "007"; "1 2"]
  = [Some 7; Some (-10); None; None; None; Some 7; None].
Proof. reflexivity. Qed.

Example str_ex : map py_str [PInt 0; PInt (-15); PInt 120] = ["0"; "-15"; "120"].
Proof. reflexivity. Qed.

Example divide_ex : divide [1;2;3;4;5] 2 = Ok [[1;2];[3;4];[5]].
Proof. reflexivity. Qed.

Example seller_stocks_ex :
  Seller.create_stocks
    [mk_row (PStr "A") (PStr "5") (PStr "100.00 x");
     mk_row (PStr "B") (PStr ">10") (PStr "200.00 x")]
    [PStr "A"; PStr "B"; PStr "C"]
  = (Ok [Seller.mk_stock (PStr "A") 5; Seller.mk_stock (PStr "B") 100;
         Seller.mk_stock (PStr "C") 0], [PStr "C"]).
Proof. vm_compute. reflexivity. Qed.

(** ** Price normalisation *)

Lemma re_sub_non_digits_filter s : re_sub_non_digits s = digits_of s.
Proof.
  unfold digits_of. induction s as [|a s IH]; simpl; [done|].
  destruct (is_digit a); simpl; by rewrite IH.
Qed.

Lemma py_split_cons sep s : ∃ p ps, py_split sep s = p :: ps.
Proof.
  induction s as [|a s [p [ps IH]]]; simpl; [by eauto|].
  destruct (Ascii.eqb a sep); [by eauto|]. rewrite IH. eauto.
Qed.

Lemma py_split_no_sep s :
  has_period s = false → py_split "." s = [s].
Proof.
  unfold has_period. induction s as [|a s IH]; simpl; [done|].
  destruct (Ascii.eqb a "."); simpl; [done|].
  intros H. by rewrite (IH H).
Qed.

Lemma py_split_first a b :
  has_period a = false →
  ∃ ps, py_split "." (a +:+ String "." b) = a :: ps.
Proof.
  unfold has_period. induction a as [|c a IH]; simpl.
  - intros _. eauto.
  - destruct (Ascii.eqb c "."); simpl; [done|].
    intros H. destruct (IH H) as [ps ->]. eauto.
Qed.

(** ** Batching *)

Lemma py_slice_chunk {A} (l : list A) (i n : Z) :
  0 ≤ i → 0 < n →
  py_slice l i (i + n) = take (Z.to_nat n) (drop (Z.to_nat i) l).
Proof.
  intros Hi Hn. unfold py_slice.
  destruct (Z.ltb_spec i 0) as [?|_]; [lia|].
  destruct (Z.ltb_spec (i + n) 0) as [?|_]; [lia|].
  destruct (Z_le_gt_dec (i + n) (Z.of_nat (length l))) as [Hle|Hgt].
  - f_equal; [lia|f_equal; lia].
  - destruct (Z_le_gt_dec i (Z.of_nat (length l))) as [Hle'|Hgt'].
    + replace (Z.to_nat (Z.min i (Z.of_nat (length l)))) with (Z.to_nat i) by lia.
      rewrite !take_ge; [done| |]; rewrite length_drop; lia.
    + rewrite !drop_ge by lia. by rewrite !take_nil.
Qed.

Lemma take_add_drop {A} (l : list A) (n k : nat) :
  take (n + k) l = take n l ++ take k (drop n l).
Proof.
  revert l. induction n as [|n IH]; intros [|x l]; simpl; try done.
  - by rewrite take_nil.
  - by rewrite IH.
Qed.

Lemma chunks_concat {A} (l : list A) (n k0 m : nat) :
  concat (map (λ k, take n (drop (k * n) l)) (seq k0 m))
  = take (m * n) (drop (k0 * n) l).
Proof.
  revert k0. induction m as [|m IH]; intros k0; simpl; [done|].
  rewrite IH, take_add_drop, drop_drop.
  do 3 f_equal. lia.
Qed.

Lemma div_ceil_bounds (len n : Z) :
  0 ≤ len → 0 < n →
  let q := (len - 0 + n - 1) / n in
  0 ≤ q ∧ len ≤ q * n ∧ (0 < q → (q - 1) * n < len).
Proof.
  intros Hlen Hn q.
  pose proof (Z.div_mod (len - 0 + n - 1) n ltac:(lia)) as Hdm.
  pose proof (Z.mod_pos_bound (len - 0 + n - 1) n Hn) as Hmod.
  fold q in Hdm. split; [apply Z.div_pos; lia|]. split; nia.
Qed.

Lemma divide_chunks {A} (lst : list A) (n : Z) :
  0 < n →
  divide lst n
  = Ok (map (λ k, take (Z.to_nat n) (drop (k * Z.to_nat n) lst))
            (seq 0 (Z.to_nat ((Z.of_nat (length lst) - 0 + n - 1) / n)))).
Proof.
  intros Hn. unfold divide, py_range.
  destruct (Z.eqb_spec n 0) as [?|_]; [lia|].
  destruct (Z.ltb_spec 0 n) as [_|?]; [|lia].
  simpl. f_equal. rewrite map_map. apply map_ext. intros k.
  rewrite py_slice_chunk by lia. do 2 f_equal. lia.
Qed.

(** C4: for [n > 0], the chunks of [divide lst n] concatenate to [lst],
    none is longer than [n], and all but the last have exactly [n]
    elements. *)
Theorem divide_concat_bounded {A} (lst : list A) (n : Z) :
  0 < n →
  ∃ chunks,
    divide lst n = Ok chunks
    ∧ concat chunks = lst
    ∧ Forall (λ c, Z.of_nat (length c) ≤ n) chunks
    ∧ ∀ (i : nat) c, chunks !! i = Some c → (i + 1 < length chunks)%nat →
        Z.of_nat (length c) = n.
Proof.
  intros Hn. eexists. split; [by apply divide_chunks|].
  destruct (div_ceil_bounds (Z.of_nat (length lst)) n ltac:(lia) Hn)
    as (Hq0 & Hup & Hlow).
  set (q := (Z.of_nat (length lst) - 0 + n - 1) / n) in *.
  split; [|split].
  - rewrite chunks_concat. simpl. apply take_ge. nia.
  - apply Forall_forall. intros c Hc. apply list_elem_of_In in Hc.
    apply in_map_iff in Hc as (k & <- & _). rewrite length_take. lia.
  - intros i c Hi Hlt. rewrite length_map, length_seq in Hlt.
    rewrite list_lookup_fmap in Hi.
    destruct (seq 0 (Z.to_nat q) !! i) as [k|] eqn:Hk; [|done].
    apply lookup_seq in Hk as [-> _]. simpl in Hi. injection Hi as <-.
    rewrite length_take, length_drop. nia.
Qed.

Lemma divide_concat_bounded_witness :
  ∃ chunks,
    divide [1; 2; 3; 4; 5] 2 = Ok chunks
    ∧ concat chunks = [1; 2; 3; 4; 5]
    ∧ Forall (λ c, Z.of_nat (length c) ≤ 2) chunks
    ∧ ∀ (i : nat) c, chunks !! i = Some c → (i + 1 < length chunks)%nat →
        Z.of_nat (length c) = 2.
Proof. apply (divide_concat_bounded [1; 2; 3; 4; 5] 2). lia. Defined.

(** C9: the docstring example, and for every string with a period:
    only the part before the first period is kept, and of it only the
    digits, in order. *)
Theorem price_conversion_integer_part :
  price_conversion (PStr "5'990.00 руб.") = Ok "5990"
  ∧ ∀ a b, has_period a = false →
      price_conversion (PStr (a +:+ String "." b)) = Ok (digits_of a)
      ∧ Forall (λ c, is_digit c = true) (list_ascii_of_string (digits_of a)).
Proof.
  split; [reflexivity|]. intros a b Ha. split.
  - unfold price_conversion. destruct (py_split_first a b Ha) as [ps ->].
    simpl. by rewrite re_sub_non_digits_filter.
  - unfold digits_of. rewrite list_ascii_of_string_of_list_ascii.
    apply Forall_forall. intros c Hc. apply list_elem_of_In in Hc.
    by apply filter_In in Hc as [_ Hc].
Qed.

Lemma price_conversion_integer_part_witness :
  price_conversion (PStr ("12 3a" +:+ String "." "45.6")) = Ok "123".
Proof.
  destruct price_conversion_integer_part as [_ H].
  destruct (H "12 3a" "45.6") as [H1 _]; [reflexivity|].
  exact H1.
Defined.

(** C3, as the code has it: a string without a period is not rejected;
    the whole string is taken as the integer part and its digits are
    returned. *)
Theorem price_conversion_no_period (s : string) :
  has_period s = false → price_conversion (PStr s) = Ok (digits_of s).
Proof.
  intros Hs. unfold price_conversion. rewrite (py_split_no_sep s Hs).
  simpl. by rewrite re_sub_non_digits_filter.
Qed.

Lemma price_conversion_no_period_witness :
  has_period "5990 руб" = false
  ∧ price_conversion (PStr "5990 руб") = Ok "5990".
Proof.
  split; [reflexivity|].
  exact (price_conversion_no_period "5990 руб" eq_refl).
Defined.

(** C3, counterexample: ["5990"] has no period and is converted without
    any error. *)
Lemma price_conversion_no_period_no_error :
  has_period "5990" = false
  ∧ price_conversion (PStr "5990") = Ok "5990"
  ∧ ∀ e, price_conversion (PStr "5990") ≠ Raise e.
Proof. split; [reflexivity|]. split; [reflexivity|]. intros e. discriminate. Qed.

(** ** Reconciliation of the feed with the known offer ids *)

Lemma py_eq_str_l c y : (py_eq (PStr c) y = true) ↔ (y = PStr c).
Proof.
  destruct y as [|b|z|s]; simpl; [split; discriminate..|].
  rewrite String.eqb_eq. split; congruence.
Qed.

Lemma py_eq_str_comm c y : py_eq y (PStr c) = py_eq (PStr c) y.
Proof. destruct y; simpl; try done. apply String.eqb_sym. Qed.

Lemma py_eq_str_r c y : (py_eq y (PStr c) = true) ↔ (y = PStr c).
Proof. rewrite py_eq_str_comm. apply py_eq_str_l. Qed.

Lemma py_in_str c l : py_in (PStr c) l = true ↔ PStr c ∈ l.
Proof.
  unfold py_in. rewrite existsb_exists. split.
  - intros (y & Hy & Heq). apply py_eq_str_l in Heq as ->.
    by apply list_elem_of_In.
  - intros H. exists (PStr c). split; [by apply list_elem_of_In|].
    by apply py_eq_str_l.
Qed.

Lemma py_in_code w l : py_in (code w) l = true ↔ code w ∈ l.
Proof. apply py_in_str. Qed.

(** [l.remove(x)] for a string [x] that is in [l] splits [l] at the first
    occurrence. *)
Lemma py_remove_str c l :
  PStr c ∈ l →
  ∃ l1 l2, l = l1 ++ PStr c :: l2 ∧ (PStr c ∉ l1)
           ∧ py_remove (PStr c) l = Ok (l1 ++ l2).
Proof.
  induction l as [|y l IH]; intros Hin; [by apply elem_of_nil in Hin|].
  simpl. destruct (py_eq y (PStr c)) eqn:Heq.
  - apply py_eq_str_r in Heq as ->. exists [], l.
    split; [done|]. split; [apply not_elem_of_nil|done].
  - assert (y ≠ PStr c) as Hne.
    { intros ->. rewrite (proj2 (py_eq_str_r c (PStr c)) eq_refl) in Heq. done. }
    apply elem_of_cons in Hin as [Hin|Hin]; [congruence|].
    destruct (IH Hin) as (l1 & l2 & -> & Hni & ->).
    exists (y :: l1), l2. split; [done|]. split; [|done].
    rewrite elem_of_cons. intros [?|?]; [congruence|done].
Qed.

Lemma remove_first_perm w K :
  code w ∈ K → K ≡ₚ code w :: remove_first (code w) K.
Proof.
  intros Hin. unfold remove_first, code in *.
  destruct (py_remove_str _ _ Hin) as (l1 & l2 & -> & _ & ->).
  by rewrite Permutation_middle.
Qed.

Lemma py_remove_absent c l :
  py_in (PStr c) l = false → py_remove (PStr c) l = Raise ValueError.
Proof.
  unfold py_in. induction l as [|y l IH]; [done|].
  cbn [existsb py_remove]. intros [Hy Hl]%orb_false_iff.
  by rewrite py_eq_str_comm, Hy, (IH Hl).
Qed.

Lemma remove_first_absent w K :
  py_in (code w) K = false → remove_first (code w) K = K.
Proof. intros H. unfold remove_first, code. by rewrite py_remove_absent. Qed.

Lemma remove_first_sublist w K : remove_first (code w) K `sublist_of` K.
Proof.
  destruct (py_in (code w) K) eqn:Hin.
  - apply py_in_code in Hin. unfold remove_first, code in *.
    destruct (py_remove_str _ _ Hin) as (l1 & l2 & -> & _ & ->).
    apply sublist_app; [done|]. by apply sublist_cons.
  - by rewrite remove_first_absent.
Qed.

Lemma remove_first_other w K x :
  x ∈ K → x ≠ code w → x ∈ remove_first (code w) K.
Proof.
  intros Hx Hne. destruct (py_in (code w) K) eqn:Hin.
  - apply py_in_code in Hin.
    rewrite (remove_first_perm w K Hin) in Hx.
    by apply elem_of_cons in Hx as [?|?].
  - by rewrite remove_first_absent.
Qed.

Lemma matched_sublist F K : matched F K `sublist_of` F.
Proof.
  revert K. induction F as [|w F IH]; intros K; simpl; [done|].
  destruct (py_in (code w) K); [by apply sublist_skip|by apply sublist_cons].
Qed.

Lemma remaining_sublist F K : remaining F K `sublist_of` K.
Proof.
  revert K. induction F as [|w F IH]; intros K; simpl; [done|].
  destruct (py_in (code w) K); [|done].
  etrans; [apply IH|apply remove_first_sublist].
Qed.

(** The matched codes and the remaining ids are together the ids the
    list had, as many times as it had them. *)
Lemma matched_remaining_perm F K :
  map code (matched F K) ++ remaining F K ≡ₚ K.
Proof.
  revert K. induction F as [|w F IH]; intros K; simpl; [done|].
  destruct (py_in (code w) K) eqn:Hin; [|done].
  apply py_in_code in Hin. simpl. rewrite IH.
  symmetry. by apply remove_first_perm.
Qed.

Lemma remaining_unmatched F K x :
  x ∈ K → x ∉ map code F → x ∈ remaining F K.
Proof.
  revert K. induction F as [|w F IH]; intros K Hx Hni; simpl; [done|].
  simpl in Hni. apply not_elem_of_cons in Hni as [Hne Hni].
  destruct (py_in (code w) K); [|by apply IH].
  apply IH; [|done]. by apply remove_first_other.
Qed.

Lemma filter_all {A} (P : A → Prop) `{∀ x, Decision (P x)} (l : list A) :
  (∀ x, x ∈ l → P x) → filter P l = l.
Proof.
  induction l as [|x l IH]; intros Hall; [done|].
  rewrite filter_cons_True by (apply Hall; left).
  rewrite IH; [done|]. intros y Hy. apply Hall. by right.
Qed.

Lemma remove_first_filter w K :
  NoDup K → remove_first (code w) K = filter (λ x, x ≠ code w) K.
Proof.
  intros Hnd. destruct (py_in (code w) K) eqn:Hin.
  - apply py_in_code in Hin. unfold remove_first, code in *.
    destruct (py_remove_str _ _ Hin) as (l1 & l2 & -> & Hl1 & ->).
    apply NoDup_app in Hnd as (_ & Hdisj & [Hl2 _]%NoDup_cons).
    rewrite filter_app, filter_cons_False by (intros Hne; by apply Hne).
    rewrite !filter_all; [done| |]; intros x Hx ->; done.
  - rewrite remove_first_absent by done. symmetry. apply filter_all.
    intros x Hx ->. apply py_in_code in Hx. congruence.
Qed.

(** With a duplicate-free list, what remains are the ids that are the
    code of no row. *)
Lemma remaining_filter F K :
  NoDup K → remaining F K = filter (λ x, x ∉ map code F) K.
Proof.
  revert K. induction F as [|w F IH]; intros K Hnd; simpl.
  - symmetry. apply filter_all. intros x _. apply not_elem_of_nil.
  - assert (remaining F (remove_first (code w) K)
            = filter (λ x, x ∉ code w :: map code F) K) as Heq.
    { rewrite IH by (eapply sublist_NoDup; [done|apply remove_first_sublist]).
      rewrite remove_first_filter by done. rewrite list_filter_filter.
      apply list_filter_iff. intros x. rewrite not_elem_of_cons. tauto. }
    destruct (py_in (code w) K) eqn:Hin; [done|].
    by rewrite <- Heq, remove_first_absent.
Qed.

Lemma foldl_snoc {A B} (f : B → A) (acc : list A) (l : list B) :
  foldl (λ acc x, acc ++ [f x]) acc l = acc ++ map f l.
Proof.
  revert acc. induction l as [|x l IH]; intros acc; simpl.
  - by rewrite app_nil_r.
  - by rewrite IH, <- app_assoc.
Qed.

(** *** The first loop of [create_stocks], for any shape of entry *)

Section Reconciler.
Context {E : Type} (entry : pyval → Z → E).

Lemma feed_pass_step w F acc K :
  feed_pass entry (w :: F) acc K =
    if py_in (code w) K then
      match stock_of w with
      | Ok q => feed_pass entry F (acc ++ [entry (code w) q]) (remove_first (code w) K)
      | Raise e => (Raise e, K)
      end
    else feed_pass entry F acc K.
Proof.
  cbn [feed_pass]. unfold Ids.bind, Ids.contains, Ids.lift, Ids.remove.
  destruct (py_in (code w) K) eqn:Hin; [|done].
  destruct (stock_of w) as [q|e]; [|done].
  apply py_in_code in Hin. unfold remove_first, code in *.
  by destruct (py_remove_str _ _ Hin) as (l1 & l2 & _ & _ & ->).
Qed.

Lemma feed_pass_ok F acc K out K' :
  feed_pass entry F acc K = (Ok out, K') →
  ∃ new, out = acc ++ new ∧ Forall2 (emitted entry) (matched F K) new
         ∧ K' = remaining F K.
Proof.
  revert acc K. induction F as [|w F IH]; intros acc K.
  - intros [= <- <-]. exists []. by rewrite app_nil_r.
  - rewrite feed_pass_step. simpl.
    destruct (py_in (code w) K); [|by apply IH].
    destruct (stock_of w) as [q|e] eqn:Hq; [|done].
    intros (new & -> & Hnew & ->)%IH.
    exists (entry (code w) q :: new). rewrite <- app_assoc.
    split; [done|]. split; [|done].
    constructor; [by exists q|done].
Qed.

Lemma feed_pass_raise F acc K e K' :
  feed_pass entry F acc K = (Raise e, K') →
  ∃ w, w ∈ matched F K ∧ stock_of w = Raise e.
Proof.
  revert acc K. induction F as [|w F IH]; intros acc K; [done|].
  rewrite feed_pass_step. simpl.
  destruct (py_in (code w) K); [|by apply IH].
  destruct (stock_of w) as [q|e'] eqn:Hq.
  - intros (w' & Hw' & He)%IH. exists w'. split; [by right|done].
  - intros [= -> _]. exists w. split; [by left|done].
Qed.

Lemma feed_pass_returns F acc K :
  Forall (λ w, ∃ q, stock_of w = Ok q) (matched F K) →
  ∃ out, feed_pass entry F acc K = (Ok out, remaining F K).
Proof.
  intros Hall. destruct (feed_pass entry F acc K) as [[out|e] K'] eqn:Hrun.
  - apply feed_pass_ok in Hrun as (new & -> & _ & ->). eauto.
  - apply feed_pass_raise in Hrun as (w & Hw & He).
    rewrite Forall_forall in Hall. destruct (Hall w Hw) as [q Hq]. congruence.
Qed.

End Reconciler.

Lemma seller_feed_pass F acc K :
  Seller.create_stocks_feed F acc K = feed_pass Seller.mk_stock F acc K.
Proof.
  revert acc K. induction F as [|w F IH]; intros acc K; [done|].
  cbn [Seller.create_stocks_feed feed_pass]. unfold Ids.bind, code.
  unfold Ids.contains, Ids.lift, Ids.remove.
  destruct (py_in _ K); [|by apply IH].
  destruct (stock_of w); [|done].
  destruct (py_remove _ K); [by apply IH|done].
Qed.

Lemma market_feed_pass date wh F acc K :
  Market.create_stocks_feed date wh F acc K
  = feed_pass (λ id q, Market.mk_stock id wh [Market.mk_item q "FIT" date]) F acc K.
Proof.
  revert acc K. induction F as [|w F IH]; intros acc K; [done|].
  cbn [Market.create_stocks_feed feed_pass]. unfold Ids.bind, code.
  unfold Ids.contains, Ids.lift, Ids.remove.
  destruct (py_in _ K); [|by apply IH].
  destruct (stock_of w); [|done].
  destruct (py_remove _ K); [by apply IH|done].
Qed.

(** The shape of what [create_stocks] returns, in [seller.py]. *)
Lemma seller_create_stocks_ok F K stocks K' :
  Seller.create_stocks F K = (Ok stocks, K') →
  ∃ new, Forall2 (emitted Seller.mk_stock) (matched F K) new
         ∧ stocks = new ++ map (λ id, Seller.mk_stock id 0) (remaining F K)
         ∧ K' = remaining F K.
Proof.
  unfold Seller.create_stocks, Ids.bind. rewrite seller_feed_pass.
  destruct (feed_pass _ F [] K) as [[out|e] K1] eqn:Hrun; [|done].
  apply feed_pass_ok in Hrun as (new & -> & Hnew & ->).
  unfold Ids.elements, Ids.ret. intros [= <- <-].
  exists new. by rewrite foldl_snoc.
Qed.

(** The same, in [market.py]. *)
Lemma market_create_stocks_ok date wh F K stocks K' :
  Market.create_stocks date F wh K = (Ok stocks, K') →
  ∃ new,
    Forall2 (emitted (λ id q, Market.mk_stock id wh [Market.mk_item q "FIT" date]))
            (matched F K) new
    ∧ stocks = new ++ map (λ id, Market.mk_stock id wh [Market.mk_item 0 "FIT" date])
                          (remaining F K)
    ∧ K' = remaining F K.
Proof.
  unfold Market.create_stocks, Ids.bind. rewrite market_feed_pass.
  destruct (feed_pass _ F [] K) as [[out|e] K1] eqn:Hrun; [|done].
  apply feed_pass_ok in Hrun as (new & -> & Hnew & ->).
  unfold Ids.elements, Ids.ret. intros [= <- <-].
  exists new. by rewrite foldl_snoc.
Qed.

Lemma emitted_ids {E} (entry : pyval → Z → E) (key : E → pyval) M new :
  (∀ id q, key (entry id q) = id) →
  Forall2 (emitted entry) M new → map key new = map code M.
Proof.
  intros Hkey. induction 1 as [|w s M new (q & _ & ->) _ IH]; simpl; [done|].
  by rewrite Hkey, IH.
Qed.

Lemma ids_ex_NoDup : NoDup ids_ex.
Proof. apply (bool_decide_unpack _). vm_compute. reflexivity. Qed.

(** C1: with a duplicate-free list of known ids, the ids of the list
    [create_stocks] returns are the known ids, each exactly once, in both
    scripts. *)
Theorem create_stocks_covers_known_ids (F : list row) (K : list pyval) :
  NoDup K →
  (∀ stocks K', Seller.create_stocks F K = (Ok stocks, K') →
     map Seller.offer_id stocks ≡ₚ K
     ∧ NoDup (map Seller.offer_id stocks)
     ∧ ∀ id, id ∈ map Seller.offer_id stocks ↔ id ∈ K)
  ∧ (∀ date wh stocks K', Market.create_stocks date F wh K = (Ok stocks, K') →
     map Market.sku stocks ≡ₚ K
     ∧ NoDup (map Market.sku stocks)
     ∧ ∀ id, id ∈ map Market.sku stocks ↔ id ∈ K).
Proof.
  intros Hnd. split.
  - intros stocks K' (new & Hnew & -> & _)%seller_create_stocks_ok.
    assert (map Seller.offer_id
              (new ++ map (λ id, Seller.mk_stock id 0) (remaining F K)) ≡ₚ K)
      as Hperm.
    { rewrite map_app, map_map, map_id.
      rewrite (emitted_ids Seller.mk_stock Seller.offer_id _ _ (λ _ _, eq_refl) Hnew).
      apply matched_remaining_perm. }
    split; [done|]. split; [by rewrite Hperm|]. intros id. by rewrite Hperm.
  - intros date wh stocks K' (new & Hnew & -> & _)%market_create_stocks_ok.
    match goal with |- map _ ?l ≡ₚ _ ∧ _ =>
      assert (map Market.sku l ≡ₚ K) as Hperm end.
    { rewrite map_app, map_map, map_id.
      rewrite (emitted_ids
                 (λ id q, Market.mk_stock id wh [Market.mk_item q "FIT" date])
                 Market.sku _ _ (λ _ _, eq_refl) Hnew).
      apply matched_remaining_perm. }
    split; [done|]. split; [by rewrite Hperm|]. intros id. by rewrite Hperm.
Qed.

Lemma create_stocks_covers_known_ids_witness :
  map Seller.offer_id
      [Seller.mk_stock (PStr "A") 5; Seller.mk_stock (PStr "B") 100;
       Seller.mk_stock (PStr "C") 0] ≡ₚ ids_ex
  ∧ map Market.sku
      [Market.mk_stock (PStr "A") (PInt 7) [Market.mk_item 5 "FIT" "now"];
       Market.mk_stock (PStr "B") (PInt 7) [Market.mk_item 100 "FIT" "now"];
       Market.mk_stock (PStr "C") (PInt 7) [Market.mk_item 0 "FIT" "now"]]
     ≡ₚ ids_ex.
Proof.
  destruct (create_stocks_covers_known_ids feed_ex ids_ex ids_ex_NoDup)
    as [Hs Hm].
  split.
  - refine (proj1 (Hs _ [PStr "C"] _)). vm_compute. reflexivity.
  - refine (proj1 (Hm "now" (PInt 7) _ [PStr "C"] _)). vm_compute. reflexivity.
Defined.

Lemma matched_first F1 w F2 K :
  code w ∈ K → code w ∉ map code F1 → w ∈ matched (F1 ++ w :: F2) K.
Proof.
  revert K. induction F1 as [|w1 F1 IH]; intros K Hk Hni; simpl.
  - rewrite (proj2 (py_in_code w K) Hk). by left.
  - simpl in Hni. apply not_elem_of_cons in Hni as [Hne Hni].
    destruct (py_in (code w1) K).
    + right. apply IH; [|done]. by apply remove_first_other.
    + by apply IH.
Qed.

Lemma matched_known F K w : w ∈ matched F K → code w ∈ K.
Proof.
  intros Hw. rewrite <- (matched_remaining_perm F K).
  apply elem_of_app. left. by apply (list_elem_of_fmap_2 code).
Qed.

(** C5: the list [create_stocks] returns is exactly the entries of the
    rows the feed loop matches ([matched F K]), in feed order and each
    with its row's quantity, followed by a zero entry for each id the loop
    leaves in the list ([remaining F K]), in list order; an id that is
    the code of no row is among the latter.  The matched rows are a
    subsequence of the feed that contains the first row of every known
    code, and with the ids left they make up the known ids. *)
Theorem create_stocks_defaults_and_order (F : list row) (K : list pyval) :
  (∀ stocks K', Seller.create_stocks F K = (Ok stocks, K') →
     ∃ new,
       Forall2 (λ w s, Seller.offer_id s = code w
                       ∧ stock_of w = Ok (Seller.stock s)) (matched F K) new
       ∧ stocks = new ++ map (λ id, Seller.mk_stock id 0) (remaining F K)
       ∧ K' = remaining F K
       ∧ ∀ id, id ∈ K → id ∉ map code F →
           id ∈ K' ∧ Seller.mk_stock id 0 ∈ stocks)
  ∧ (∀ date wh stocks K', Market.create_stocks date F wh K = (Ok stocks, K') →
     ∃ new,
       Forall2 (λ w s, Market.sku s = code w ∧ Market.warehouseId s = wh
                       ∧ ∃ q, stock_of w = Ok q
                              ∧ Market.items s = [Market.mk_item q "FIT" date])
               (matched F K) new
       ∧ stocks = new ++ map (λ id, Market.mk_stock id wh [Market.mk_item 0 "FIT" date])
                             (remaining F K)
       ∧ K' = remaining F K
       ∧ ∀ id, id ∈ K → id ∉ map code F →
           id ∈ K'
           ∧ Market.mk_stock id wh [Market.mk_item 0 "FIT" date] ∈ stocks)
  ∧ matched F K `sublist_of` F
  ∧ remaining F K `sublist_of` K
  ∧ map code (matched F K) ++ remaining F K ≡ₚ K
  ∧ (∀ w, w ∈ matched F K → code w ∈ K)
  ∧ (∀ F1 w F2, F = F1 ++ w :: F2 → code w ∈ K → code w ∉ map code F1 →
       w ∈ matched F K).
Proof.
  split; [|split; [|split; [|split; [|split; [|split]]]]].
  - intros stocks K' (new & Hnew & -> & ->)%seller_create_stocks_ok.
    exists new. split; [|split; [done|split; [done|]]].
    + eapply Forall2_impl; [exact Hnew|]. by intros w s (q & Hq & ->).
    + intros id Hid Hni. pose proof (remaining_unmatched F K id Hid Hni) as Hr.
      split; [done|]. apply elem_of_app. right.
      by apply (list_elem_of_fmap_2 (λ id, Seller.mk_stock id 0)).
  - intros date wh stocks K' (new & Hnew & -> & ->)%market_create_stocks_ok.
    exists new. split; [|split; [done|split; [done|]]].
    + eapply Forall2_impl; [exact Hnew|]. intros w s (q & Hq & ->).
      split; [done|]. split; [done|]. eauto.
    + intros id Hid Hni. pose proof (remaining_unmatched F K id Hid Hni) as Hr.
      split; [done|]. apply elem_of_app. right.
      by apply (list_elem_of_fmap_2
                  (λ id, Market.mk_stock id wh [Market.mk_item 0 "FIT" date])).
  - apply matched_sublist.
  - apply remaining_sublist.
  - apply matched_remaining_perm.
  - intros w. apply matched_known.
  - intros F1 w F2 ->. apply matched_first.
Qed.

Lemma create_stocks_defaults_and_order_witness :
  Seller.create_stocks feed_ex ids_ex
  = (Ok [Seller.mk_stock (PStr "A") 5; Seller.mk_stock (PStr "B") 100;
         Seller.mk_stock (PStr "C") 0], [PStr "C"])
  ∧ ∃ new,
      Forall2 (λ w s, Seller.offer_id s = code w
                      ∧ stock_of w = Ok (Seller.stock s))
              (matched feed_ex ids_ex) new
      ∧ [Seller.mk_stock (PStr "A") 5; Seller.mk_stock (PStr "B") 100;
         Seller.mk_stock (PStr "C") 0]
        = new ++ map (λ id, Seller.mk_stock id 0) (remaining feed_ex ids_ex)
      ∧ [PStr "C"] = remaining feed_ex ids_ex
      ∧ ∀ id, id ∈ ids_ex → id ∉ map code feed_ex →
          id ∈ [PStr "C"]
          ∧ Seller.mk_stock id 0
            ∈ [Seller.mk_stock (PStr "A") 5; Seller.mk_stock (PStr "B") 100;
               Seller.mk_stock (PStr "C") 0].
Proof.
  assert (Seller.create_stocks feed_ex ids_ex
          = (Ok [Seller.mk_stock (PStr "A") 5; Seller.mk_stock (PStr "B") 100;
                 Seller.mk_stock (PStr "C") 0], [PStr "C"])) as Hrun.
  { vm_compute. reflexivity. }
  split; [exact Hrun|].
  exact (proj1 (create_stocks_defaults_and_order feed_ex ids_ex) _ _ Hrun).
Defined.

(** ** Quantity normalisation *)

(** A decimal digit character, in terms of the Standard Library's reading
    of decimal strings: it is read as a digit, extends the number read so
    far, and is neither a blank nor a sign. *)
Lemma digit_step a d u :
  uint_of_char a (Some d) = Some u →
  is_digit a = true ∧ is_space a = false
  ∧ a ≠ "-"%char ∧ a ≠ "+"%char ∧ a ≠ ">"%char
  ∧ ∃ push : Decimal.uint → Decimal.uint,
      (∀ r, Decimal.revapp u r = Decimal.revapp d (push r))
      ∧ ∀ r, Z.of_N (DecimalPos.Unsigned.of_lu (push r))
             = Z.of_N (DecimalPos.Unsigned.of_lu r) * 10 + digit_val a.
Proof.
  intros H. apply uint_of_char_spec in H.
  repeat (destruct H as [[-> ->]|H]); [..|destruct H as [-> ->]];
    (do 5 (split; [done|]));
    (eexists; split; [intros r; cbn [Decimal.revapp]; reflexivity|]);
    intros r; cbn [DecimalPos.Unsigned.of_lu]; unfold digit_val;
    match goal with
    | |- context [Z.of_nat (nat_of_ascii ?c)] =>
        let v := eval vm_compute in (Z.of_nat (nat_of_ascii c)) in
        change (Z.of_nat (nat_of_ascii c)) with v
    end; lia.
Qed.

Lemma int_digits_numeric s :
  ∀ u r st,
    NilEmpty.uint_of_string s = Some u →
    s ≠ "" ∨ st = AfterDigit →
    int_digits s (Z.of_N (DecimalPos.Unsigned.of_lu r)) st
    = Some (Z.of_N (DecimalPos.Unsigned.of_lu (Decimal.revapp u r))).
Proof.
  induction s as [|a s IH]; intros u r st Hu Hst.
  - destruct Hst as [? | ->]; [done|]. by injection Hu as <-.
  - cbn [NilEmpty.uint_of_string] in Hu.
    destruct (NilEmpty.uint_of_string s) as [d|] eqn:Hd; [|done].
    destruct (digit_step a d u Hu) as (Hdig & _ & _ & _ & _ & push & Hrev & Hval).
    cbn [int_digits]. rewrite Hdig, <- Hval, Hrev.
    apply IH; [done|by right].
Qed.

(** [int] of a non-empty string of decimal digits is the number the
    Standard Library reads from it. *)
Lemma int_of_string_numeric s u :
  s ≠ "" → NilEmpty.uint_of_string s = Some u →
  int_of_string s = Some (Z.of_uint u).
Proof.
  intros Hne Hu. unfold Z.of_uint.
  rewrite DecimalPos.Unsigned.of_uint_alt. unfold Decimal.rev.
  rewrite <- (int_digits_numeric s u Decimal.Nil AtStart Hu (or_introl Hne)).
  destruct s as [|a s]; [done|].
  cbn [NilEmpty.uint_of_string] in Hu.
  destruct (NilEmpty.uint_of_string s) as [d|]; [|done].
  destruct (digit_step a d u Hu) as (_ & Hsp & Hm & Hp & _).
  unfold int_of_string. cbn [lstrip]. rewrite Hsp.
  destruct a as [[] [] [] [] [] [] [] []]; try done.
Qed.

Lemma numeric_not_sentinel s u :
  NilEmpty.uint_of_string s = Some u → String.eqb s ">10" = false.
Proof.
  intros Hu. apply String.eqb_neq. intros ->. done.
Qed.

(** C2: [">10"] gives 100, ["1"] gives 0, any other non-empty string of
    decimal digits gives the number it denotes (["7"] gives 7); and every
    row that [create_stocks] matches is emitted with exactly this
    number. *)
Theorem stock_of_normalises :
  (∀ w, get w "Количество" = PStr ">10" → stock_of w = Ok 100)
  ∧ (∀ w, get w "Количество" = PStr "1" → stock_of w = Ok 0)
  ∧ (∀ w s u, get w "Количество" = PStr s →
       s ≠ "" → s ≠ "1" → NilEmpty.uint_of_string s = Some u →
       stock_of w = Ok (Z.of_uint u))
  ∧ stock_of (quantity_row (PStr "7")) = Ok 7
  ∧ (∀ F K stocks K', Seller.create_stocks F K = (Ok stocks, K') →
       ∃ new, new `prefix_of` stocks
         ∧ Forall2 (λ w s, Seller.offer_id s = code w
                           ∧ stock_of w = Ok (Seller.stock s))
                   (matched F K) new)
  ∧ (∀ date wh F K stocks K',
       Market.create_stocks date F wh K = (Ok stocks, K') →
       ∃ new, new `prefix_of` stocks
         ∧ Forall2 (λ w s, Market.sku s = code w
                           ∧ ∃ q, stock_of w = Ok q
                                  ∧ Market.items s = [Market.mk_item q "FIT" date])
                   (matched F K) new).
Proof.
  split; [|split; [|split; [|split; [|split]]]].
  - intros w Hw. unfold stock_of. by rewrite Hw.
  - intros w Hw. unfold stock_of. by rewrite Hw.
  - intros w s u Hw Hne H1 Hu. unfold stock_of. rewrite Hw. cbn [py_str].
    rewrite (numeric_not_sentinel s u Hu).
    rewrite (proj2 (String.eqb_neq s "1") H1).
    cbn [py_int]. by rewrite (int_of_string_numeric s u Hne Hu).
  - vm_compute. reflexivity.
  - intros F K stocks K' (new & Hnew & -> & _)%seller_create_stocks_ok.
    exists new. split; [by apply prefix_app_r|].
    eapply Forall2_impl; [exact Hnew|]. by intros w s (q & Hq & ->).
  - intros date wh F K stocks K' (new & Hnew & -> & _)%market_create_stocks_ok.
    exists new. split; [by apply prefix_app_r|].
    eapply Forall2_impl; [exact Hnew|]. intros w s (q & Hq & ->). eauto.
Qed.

Lemma stock_of_normalises_witness :
  stock_of (quantity_row (PStr ">10")) = Ok 100
  ∧ stock_of (quantity_row (PStr "1")) = Ok 0
  ∧ stock_of (quantity_row (PStr "042")) = Ok 42
  ∧ ∃ new,
      new `prefix_of` [Seller.mk_stock (PStr "A") 5; Seller.mk_stock (PStr "B") 100;
                       Seller.mk_stock (PStr "C") 0]
      ∧ Forall2 (λ w s, Seller.offer_id s = code w
                        ∧ stock_of w = Ok (Seller.stock s))
                (matched feed_ex ids_ex) new.
Proof.
  destruct stock_of_normalises as (H10 & H1 & Hnum & _ & Hsel & _).
  split; [apply H10; reflexivity|].
  split; [apply H1; reflexivity|].
  split.
  - apply (Hnum (quantity_row (PStr "042")) "042"
             (Decimal.D0 (Decimal.D4 (Decimal.D2 Decimal.Nil))));
      [reflexivity|discriminate|discriminate|reflexivity].
  - apply (Hsel feed_ex ids_ex _ [PStr "C"]). vm_compute. reflexivity.
Defined.

(** ** Price lists *)

(** [create_prices] only reads the list of ids. *)
Lemma seller_prices_feed_ids F acc K :
  (Seller.create_prices_feed F acc K).2 = K.
Proof.
  revert acc. induction F as [|w F IH]; intros acc; [done|].
  cbn [Seller.create_prices_feed]. unfold Ids.bind, Ids.contains, Ids.lift.
  destruct (py_in _ K); [|by apply IH].
  destruct (price_conversion _); [by apply IH|done].
Qed.

Lemma market_prices_feed_ids F acc K :
  (Market.create_prices_feed F acc K).2 = K.
Proof.
  revert acc. induction F as [|w F IH]; intros acc; [done|].
  cbn [Market.create_prices_feed]. unfold Ids.bind, Ids.contains, Ids.lift.
  destruct (py_in _ K); [|by apply IH].
  destruct (price_conversion _); [|done].
  destruct (py_int _); [by apply IH|done].
Qed.

Lemma seller_prices_feed_ok F acc K out K' :
  Seller.create_prices_feed F acc K = (Ok out, K') →
  ∃ new, out = acc ++ new
         ∧ Forall2 seller_priced (filter (λ w, code w ∈ K) F) new.
Proof.
  revert acc. induction F as [|w F IH]; intros acc.
  - intros [= <- _]. exists []. by rewrite app_nil_r.
  - cbn [Seller.create_prices_feed]. unfold Ids.bind, Ids.contains, Ids.lift.
    fold (code w). destruct (py_in (code w) K) eqn:Hin.
    + apply py_in_code in Hin. rewrite filter_cons_True by done.
      destruct (price_conversion _) as [s|] eqn:Hs; [|done].
      intros (new & -> & Hnew)%IH. eexists (_ :: new).
      rewrite <- app_assoc. split; [done|].
      constructor; [by exists s|done].
    + rewrite filter_cons_False; [by apply IH|].
      intros Hc%py_in_code. congruence.
Qed.

Lemma market_prices_feed_ok F acc K out K' :
  Market.create_prices_feed F acc K = (Ok out, K') →
  ∃ new, out = acc ++ new
         ∧ Forall2 market_priced (filter (λ w, code w ∈ K) F) new.
Proof.
  revert acc. induction F as [|w F IH]; intros acc.
  - intros [= <- _]. exists []. by rewrite app_nil_r.
  - cbn [Market.create_prices_feed]. unfold Ids.bind, Ids.contains, Ids.lift.
    fold (code w). destruct (py_in (code w) K) eqn:Hin.
    + apply py_in_code in Hin. rewrite filter_cons_True by done.
      destruct (price_conversion _) as [s|] eqn:Hs; [|done].
      destruct (py_int _) as [v|] eqn:Hv; [|done].
      intros (new & -> & Hnew)%IH. eexists (_ :: new).
      rewrite <- app_assoc. split; [done|].
      constructor; [by exists s, v|done].
    + rewrite filter_cons_False; [by apply IH|].
      intros Hc%py_in_code. congruence.
Qed.

Lemma priced_ids {P} (R : row → P → Prop) (key : P → pyval) M new :
  (∀ w p, R w p → key p = code w) →
  Forall2 R M new → map key new = map code M.
Proof.
  intros Hkey. induction 1 as [|w p M new HR _ IH]; simpl; [done|].
  by rewrite (Hkey w p HR), IH.
Qed.

Lemma elem_of_codes_filter (F : list row) (K : list pyval) id :
  id ∈ map code (filter (λ w, code w ∈ K) F) ↔ id ∈ K ∧ id ∈ map code F.
Proof.
  change (map code) with (fmap (M:=list) code).
  rewrite !list_elem_of_fmap. split.
  - intros (w & -> & [Hk Hw]%list_elem_of_filter). eauto.
  - intros (Hk & w & -> & Hw). exists w. split; [done|].
    by apply list_elem_of_filter.
Qed.

(** C6: [create_prices] leaves the list of ids as it was, and returns
    one entry for each feed row whose code is in the list, in feed order,
    and nothing else: an id appears in the result exactly when it is in
    the list and is the code of a row. *)
Theorem create_prices_only_known_feed_rows (F : list row) (K : list pyval) :
  (Seller.create_prices F K).2 = K
  ∧ (Market.create_prices F K).2 = K
  ∧ (∀ prices K', Seller.create_prices F K = (Ok prices, K') →
       Forall2 (λ w p, Seller.price_offer_id p = code w
                       ∧ price_conversion (get w "Цена") = Ok (Seller.price p))
               (filter (λ w, code w ∈ K) F) prices
       ∧ ∀ id, id ∈ map Seller.price_offer_id prices ↔ id ∈ K ∧ id ∈ map code F)
  ∧ (∀ prices K', Market.create_prices F K = (Ok prices, K') →
       Forall2 (λ w p, Market.id p = code w
                       ∧ ∃ s, price_conversion (get w "Цена") = Ok s
                              ∧ py_int (PStr s) = Ok (Market.value (Market.price p)))
               (filter (λ w, code w ∈ K) F) prices
       ∧ ∀ id, id ∈ map Market.id prices ↔ id ∈ K ∧ id ∈ map code F).
Proof.
  split; [apply seller_prices_feed_ids|].
  split; [apply market_prices_feed_ids|]. split.
  - intros prices K' (new & -> & Hnew)%seller_prices_feed_ok. simpl. split.
    + eapply Forall2_impl; [exact Hnew|]. by intros w p (s & Hs & ->).
    + intros id.
      rewrite (priced_ids seller_priced Seller.price_offer_id _ _
                 ltac:(by intros w p (s & _ & ->)) Hnew).
      apply elem_of_codes_filter.
  - intros prices K' (new & -> & Hnew)%market_prices_feed_ok. simpl. split.
    + eapply Forall2_impl; [exact Hnew|].
      intros w p (s & v & Hs & Hv & ->). eauto.
    + intros id.
      rewrite (priced_ids market_priced Market.id _ _
                 ltac:(by intros w p (s & v & _ & _ & ->)) Hnew).
      apply elem_of_codes_filter.
Qed.

Lemma create_prices_only_known_feed_rows_witness :
  Seller.create_prices feed_ex ids_ex
  = (Ok [Seller.mk_price "UNKNOWN" "RUB" (PStr "A") "0" "100";
         Seller.mk_price "UNKNOWN" "RUB" (PStr "B") "0" "200"], ids_ex)
  ∧ ∀ id, id ∈ [PStr "A"; PStr "B"] ↔ id ∈ ids_ex ∧ id ∈ map code feed_ex.
Proof.
  assert (Seller.create_prices feed_ex ids_ex
          = (Ok [Seller.mk_price "UNKNOWN" "RUB" (PStr "A") "0" "100";
                 Seller.mk_price "UNKNOWN" "RUB" (PStr "B") "0" "200"], ids_ex))
    as Hrun by (vm_compute; reflexivity).
  split; [exact Hrun|].
  destruct (create_prices_only_known_feed_rows feed_ex ids_ex)
    as (_ & _ & Hs & _).
  exact (proj2 (Hs _ _ Hrun)).
Defined.

(** ** The run of [seller.py] *)

Lemma run_bind_ok {S A B} (m : Run.M S A) (k : A → Run.M S B) s b s2 :
  Run.bind m k s = Some (Ok b, s2) →
  ∃ a s1, m s = Some (Ok a, s1) ∧ k a s1 = Some (Ok b, s2).
Proof.
  unfold Run.bind. destruct (m s) as [[[a|e] s1]|]; [eauto|done|done].
Qed.

Lemma with_ids_ok {St A} (m : Ids.M A) ids (w : SellerApi.world (St:=St)) r w' :
  SellerApi.with_ids m ids w = Some (Ok r, w') →
  m ids = (Ok r.1, r.2) ∧ w' = w.
Proof.
  unfold SellerApi.with_ids. destruct (m ids) as [[a|e] ids']; [|done].
  by intros [= <- <-].
Qed.

Lemma filter_none {A} (P : A → Prop) `{∀ x, Decision (P x)} (l : list A) :
  (∀ x, x ∈ l → ¬ P x) → filter P l = [].
Proof.
  induction l as [|x l IH]; intros Hall; [done|].
  rewrite filter_cons_False by (apply Hall; left).
  apply IH. intros y Hy. apply Hall. by right.
Qed.

(** C10, counterexample: with the id ["A"] listed twice and one feed row
    of code ["A"] (a feed without duplicate codes), ["A"] is still in the
    list after [create_stocks] although a row matched it, and the price
    list built in [main] is not empty. *)
Lemma create_stocks_keeps_duplicate_id :
  let K := [PStr "A"; PStr "A"] in
  let F := [mk_row (PStr "A") (PStr "5") (PStr "100.00 x")] in
  NoDup (map code F)
  ∧ PStr "A" ∈ map code F
  ∧ Seller.create_stocks F K
    = (Ok [Seller.mk_stock (PStr "A") 5; Seller.mk_stock (PStr "A") 0],
       [PStr "A"])
  ∧ SellerApi.main_try (one_page_remote K F) 1 (tt, [])
    = Some (Ok ([Seller.mk_stock (PStr "A") 5; Seller.mk_stock (PStr "A") 0],
                [Seller.mk_price "UNKNOWN" "RUB" (PStr "A") "0" "100"]),
            (tt, [SellerApi.Sent_stocks
                    [Seller.mk_stock (PStr "A") 5; Seller.mk_stock (PStr "A") 0];
                  SellerApi.Sent_prices
                    [Seller.mk_price "UNKNOWN" "RUB" (PStr "A") "0" "100"]])).
Proof.
  split; [apply (bool_decide_unpack _); vm_compute; reflexivity|].
  split; [apply (bool_decide_unpack _); vm_compute; reflexivity|].
  split; vm_compute; reflexivity.
Qed.

(** C10, as the code has it: [create_stocks] removes from the caller's
    list the first occurrence of each matched code; when the list is
    duplicate-free, what is left are exactly the ids that are the code of
    no feed row, and then the price list [main] builds from that same list
    is empty, whatever the feed. *)
Theorem create_stocks_leaves_unmatched_ids :
  (∀ F K stocks K', NoDup K →
     Seller.create_stocks F K = (Ok stocks, K') →
     K' = filter (λ id, id ∉ map code F) K)
  ∧ (∀ date wh F K stocks K', NoDup K →
     Market.create_stocks date F wh K = (Ok stocks, K') →
     K' = filter (λ id, id ∉ map code F) K)
  ∧ (∀ St (api : SellerApi.remote St) fuel w0 ids w stocks prices w1,
     SellerApi.get_offer_ids
       (λ c, SellerApi.on_remote (SellerApi.get_product_list api c)) fuel w0
     = Some (Ok ids, w) →
     NoDup ids →
     SellerApi.main_try api fuel w0 = Some (Ok (stocks, prices), w1) →
     prices = []).
Proof.
  split; [|split].
  - intros F K stocks K' Hnd (_ & _ & _ & ->)%seller_create_stocks_ok.
    by apply remaining_filter.
  - intros date wh F K stocks K' Hnd (_ & _ & _ & ->)%market_create_stocks_ok.
    by apply remaining_filter.
  - intros St api fuel w0 ids w stocks prices w1 Hids Hnd Hrun.
    unfold SellerApi.main_try in Hrun.
    apply run_bind_ok in Hrun as (ids' & w' & Hids' & Hrun).
    rewrite Hids in Hids'. injection Hids' as <- <-.
    apply run_bind_ok in Hrun as (F & w2 & _ & Hrun).
    apply run_bind_ok in Hrun as ([stocks' K'] & w3 & [Hcs _]%with_ids_ok & Hrun).
    simpl in Hcs, Hrun.
    apply run_bind_ok in Hrun as (b1 & w4 & _ & Hrun).
    apply run_bind_ok in Hrun as ([] & w5 & _ & Hrun).
    apply run_bind_ok in Hrun as ([prices' K''] & w6 & [Hcp _]%with_ids_ok & Hrun).
    simpl in Hcp, Hrun.
    apply run_bind_ok in Hrun as (b2 & w7 & _ & Hrun).
    apply run_bind_ok in Hrun as ([] & w8 & _ & Hrun).
    injection Hrun as <- <- <-.
    apply seller_create_stocks_ok in Hcs as (_ & _ & _ & ->).
    apply seller_prices_feed_ok in Hcp as (new & -> & Hnew).
    rewrite filter_none in Hnew; [by apply Forall2_nil_inv_l in Hnew as ->|].
    intros x Hx. rewrite remaining_filter by done.
    intros [Hni _]%list_elem_of_filter. apply Hni.
    by apply (list_elem_of_fmap_2 code).
Qed.

Lemma create_stocks_leaves_unmatched_ids_witness :
  [PStr "C"] = filter (λ id, id ∉ map code feed_ex) ids_ex
  ∧ ∃ stocks w1,
      SellerApi.main_try (one_page_remote ids_ex feed_ex) 1 (tt, [])
      = Some (Ok (stocks, []), w1).
Proof.
  destruct create_stocks_leaves_unmatched_ids as (Hs & _ & Hmain).
  split.
  - apply (Hs feed_ex ids_ex
             [Seller.mk_stock (PStr "A") 5; Seller.mk_stock (PStr "B") 100;
              Seller.mk_stock (PStr "C") 0] [PStr "C"] ids_ex_NoDup).
    vm_compute. reflexivity.
  - destruct (SellerApi.main_try (one_page_remote ids_ex feed_ex) 1 (tt, []))
      as [[[[stocks prices]|e] w1]|] eqn:Hrun;
      [|exfalso; revert Hrun; vm_compute; discriminate..].
    exists stocks, w1.
    rewrite (Hmain unit (one_page_remote ids_ex feed_ex) 1%nat (tt, []) ids_ex
               (tt, []) stocks prices w1); [done| |exact ids_ex_NoDup|exact Hrun].
    vm_compute. reflexivity.
Defined.

(** Listing the offers sends and prints nothing. *)
Lemma seller_listing_loop_trace {St} (api : SellerApi.remote St) fuel :
  ∀ c pl w r w',
    SellerApi.get_offer_ids_loop
      (λ c, SellerApi.on_remote (SellerApi.get_product_list api c)) fuel c pl w
    = Some (r, w') →
    w'.2 = w.2.
Proof.
  induction fuel as [|fuel IH]; intros c pl w r w'; [done|].
  cbn [SellerApi.get_offer_ids_loop].
  unfold Run.bind, Run.call, Run.lift, SellerApi.on_remote.
  destruct (SellerApi.get_product_list api c w.1) as [[[p|]|e] st]; simpl;
    [|by intros [= <- <-]..].
  destruct (SellerApi.page_items p) as [its|]; simpl; [|by intros [= <- <-]].
  destruct (py_eq _ _).
  - by intros [= <- <-].
  - intros Hrec. by apply IH in Hrec.
Qed.

Lemma seller_listing_trace {St} (api : SellerApi.remote St) fuel w r w' :
  SellerApi.get_offer_ids
    (λ c, SellerApi.on_remote (SellerApi.get_product_list api c)) fuel w
  = Some (r, w') →
  w'.2 = w.2.
Proof.
  unfold SellerApi.get_offer_ids, Run.bind.
  destruct (SellerApi.get_offer_ids_loop _ _ _ _ _) as [[[pl|e] w1]|] eqn:Hloop;
    [| |done].
  - intros [= <- <-]. by apply seller_listing_loop_trace in Hloop.
  - intros [= <- <-]. by apply seller_listing_loop_trace in Hloop.
Qed.

Lemma stock_of_raise w e :
  stock_of w = Raise e → e = ValueError ∨ e = TypeError.
Proof.
  unfold stock_of. destruct (String.eqb _ ">10"); [done|].
  destruct (String.eqb _ "1"); [done|].
  destruct (get w "Количество") as [|b|z|s]; simpl; try done.
  - intros [= <-]. by right.
  - destruct (int_of_string s); [done|]. intros [= <-]. by left.
Qed.

Lemma Forall2_elem_of_l {A B} (R : A → B → Prop) l k x :
  Forall2 R l k → x ∈ l → ∃ y, R x y.
Proof.
  induction 1 as [|a b l k HR _ IH]; intros Hx; [by apply elem_of_nil in Hx|].
  apply elem_of_cons in Hx as [->|Hx]; eauto.
Qed.

(** A matched row whose quantity cannot be converted makes the first
    loop raise, for any shape of entry. *)
Lemma feed_pass_bad_row {E} (entry : pyval → Z → E) F acc K w e :
  w ∈ matched F K → stock_of w = Raise e →
  ∃ e' K', feed_pass entry F acc K = (Raise e', K')
           ∧ (e' = ValueError ∨ e' = TypeError).
Proof.
  intros Hw He. destruct (feed_pass entry F acc K) as [[out|e'] K'] eqn:Hrun.
  - apply feed_pass_ok in Hrun as (new & _ & Hnew & _).
    destruct (Forall2_elem_of_l _ _ _ _ Hnew Hw) as (s & q & Hq & _). congruence.
  - exists e', K'. split; [done|].
    apply feed_pass_raise in Hrun as (w' & _ & He'). by eapply stock_of_raise.
Qed.

(** C8, counterexample: the first row has an unconvertible quantity and
    price, but its code is not a known id; [create_stocks] and
    [create_prices] skip it and handle the other row, and [main] sends the
    stock update and prints nothing.  A matched row with a price that has
    no digit is given the empty price by the seller's [create_prices]. *)
Lemma unmatched_bad_row_is_skipped :
  let bad := mk_row (PStr "X") (PStr "many") (PStr "n/a") in
  let F := [bad; mk_row (PStr "A") (PStr "5") (PStr "100.00 x")] in
  let K := [PStr "A"] in
  stock_of bad = Raise ValueError
  ∧ Seller.create_stocks F K = (Ok [Seller.mk_stock (PStr "A") 5], [])
  ∧ Seller.create_prices F K
    = (Ok [Seller.mk_price "UNKNOWN" "RUB" (PStr "A") "0" "100"], K)
  ∧ SellerApi.main (one_page_remote K F) 1 (tt, [])
    = Some (Ok tt, (tt, [SellerApi.Sent_stocks [Seller.mk_stock (PStr "A") 5]]))
  ∧ Seller.create_prices [mk_row (PStr "A") (PStr "5") (PStr "n/a")] K
    = (Ok [Seller.mk_price "UNKNOWN" "RUB" (PStr "A") "0" ""], K).
Proof. repeat split; vm_compute; reflexivity. Qed.

(** C8, as the code has it: a row that [create_stocks] matches and whose
    quantity [int] rejects makes [create_stocks] raise ([ValueError] or
    [TypeError]), in both scripts, and then [main] of [seller.py] ends in
    its last handler: it has sent nothing and prints the error.  A row
    whose code is not a known id is skipped whatever its quantity. *)
Theorem bad_matched_quantity_aborts_run :
  (∀ F K w e, w ∈ matched F K → stock_of w = Raise e →
     ∃ e' K', Seller.create_stocks F K = (Raise e', K')
              ∧ (e' = ValueError ∨ e' = TypeError))
  ∧ (∀ date wh F K w e, w ∈ matched F K → stock_of w = Raise e →
     ∃ e' K', Market.create_stocks date F wh K = (Raise e', K')
              ∧ (e' = ValueError ∨ e' = TypeError))
  ∧ (∀ St (api : SellerApi.remote St) fuel w0 ids w1 F st2 w e,
     SellerApi.get_offer_ids
       (λ c, SellerApi.on_remote (SellerApi.get_product_list api c)) fuel w0
     = Some (Ok ids, w1) →
     SellerApi.download_stock api w1.1 = (Ok F, st2) →
     w ∈ matched F ids → stock_of w = Raise e →
     ∃ e', SellerApi.main api fuel w0
           = Some (Ok tt, (st2, w0.2 ++ [SellerApi.Printed_error e' "ERROR_2"])))
  ∧ (∀ w F K, py_in (code w) K = false →
     Seller.create_stocks (w :: F) K = Seller.create_stocks F K
     ∧ ∀ date wh, Market.create_stocks date (w :: F) wh K
                  = Market.create_stocks date F wh K).
Proof.
  split; [|split; [|split]].
  - intros F K w e Hw He.
    destruct (feed_pass_bad_row Seller.mk_stock F [] K w e Hw He)
      as (e' & K' & Hrun & He').
    exists e', K'. split; [|done].
    unfold Seller.create_stocks, Ids.bind. by rewrite seller_feed_pass, Hrun.
  - intros date wh F K w e Hw He.
    destruct (feed_pass_bad_row
                (λ id q, Market.mk_stock id wh [Market.mk_item q "FIT" date])
                F [] K w e Hw He) as (e' & K' & Hrun & He').
    exists e', K'. split; [|done].
    unfold Market.create_stocks, Ids.bind. by rewrite market_feed_pass, Hrun.
  - intros St api fuel w0 ids w1 F st2 w e Hids Hfeed Hw He.
    destruct (feed_pass_bad_row Seller.mk_stock F [] ids w e Hw He)
      as (e' & K' & Hrun & He').
    exists e'. pose proof (seller_listing_trace api fuel w0 _ _ Hids) as Htr.
    unfold SellerApi.main, Run.try_except, SellerApi.main_try.
    unfold Run.bind at 1 2. rewrite Hids.
    unfold Run.bind at 1, Run.call, SellerApi.on_remote. rewrite Hfeed.
    unfold Run.bind at 1, SellerApi.with_ids, Seller.create_stocks.
    unfold Ids.bind at 1. rewrite seller_feed_pass, Hrun.
    unfold Run.lift, SellerApi.emit. cbn [fst snd]. rewrite Htr.
    by destruct He' as [-> | ->].
  - intros w F K Hin. split.
    + unfold Seller.create_stocks, Ids.bind.
      by rewrite !seller_feed_pass, feed_pass_step, Hin.
    + intros date wh. unfold Market.create_stocks, Ids.bind.
      by rewrite !market_feed_pass, feed_pass_step, Hin.
Qed.

Lemma bad_matched_quantity_aborts_run_witness :
  let F := [mk_row (PStr "A") (PStr "5") (PStr "100.00 x");
            mk_row (PStr "B") (PStr "many") (PStr "200.00 x")] in
  ∃ e', SellerApi.main (one_page_remote ids_ex F) 1 (tt, [])
        = Some (Ok tt, (tt, [] ++ [SellerApi.Printed_error e' "ERROR_2"])).
Proof.
  intros F.
  destruct bad_matched_quantity_aborts_run as (_ & _ & Hmain & _).
  apply (Hmain unit (one_page_remote ids_ex F) 1%nat (tt, []) ids_ex (tt, []) F tt
           (mk_row (PStr "B") (PStr "many") (PStr "200.00 x")) ValueError).
  - vm_compute. reflexivity.
  - reflexivity.
  - apply (bool_decide_unpack _). vm_compute. reflexivity.
  - vm_compute. reflexivity.
Defined.

(** ** Pagination *)

Section MarketPaging.
Context {S : Type}.
Variable h : pyval → S → result (option MarketApi.page) * S.

Lemma market_loop_pages c s pgs s' :
  market_pages h c s pgs s' →
  ∀ fuel pl, (length pgs ≤ fuel)%nat →
    MarketApi.get_offer_ids_loop h fuel c pl s = Some (Ok (pl ++ concat pgs), s').
Proof.
  induction 1 as [c s s' p its cur Hh Hits Hcur Hend
                 |c s s' p its cur rest s'' Hh Hits Hcur Hmore _ IH];
    intros [|fuel] pl Hfuel; simpl in Hfuel; try lia;
    cbn [MarketApi.get_offer_ids_loop];
    unfold Run.bind, Run.call, Run.lift; rewrite Hh; simpl;
    rewrite Hits; simpl; rewrite Hcur; simpl.
  - rewrite Hend. simpl. by rewrite app_nil_r.
  - rewrite Hmore. simpl. rewrite IH by lia. by rewrite <- app_assoc.
Qed.

(** An endpoint that answers every request with a page and a non-empty
    next cursor keeps the loop running: no amount of fuel ends it. *)
Lemma market_loop_forever :
  (∀ c s, ∃ p its cur s',
     h c s = (Ok (Some p), s')
     ∧ MarketApi.offerMappingEntries p = Some its
     ∧ MarketApi.paging p = Some cur
     ∧ py_truthy (get cur "nextPageToken") = true) →
  ∀ fuel c pl s, MarketApi.get_offer_ids_loop h fuel c pl s = None.
Proof.
  intros Hh. induction fuel as [|fuel IH]; intros c pl s; [done|].
  destruct (Hh c s) as (p & its & cur & s' & Hp & Hits & Hcur & Hmore).
  cbn [MarketApi.get_offer_ids_loop].
  unfold Run.bind, Run.call, Run.lift. rewrite Hp. simpl.
  rewrite Hits. simpl. rewrite Hcur. simpl. rewrite Hmore. simpl. apply IH.
Qed.

Lemma shop_skus_all pl os acc :
  mapM MarketApi.offer pl = Some os →
  MarketApi.shop_skus pl acc = Ok (acc ++ map (λ o, get o "shopSku") os).
Proof.
  revert os acc. induction pl as [|e pl IH]; intros os acc.
  - intros [= <-]. simpl. by rewrite app_nil_r.
  - cbn [mapM MarketApi.shop_skus].
    destruct (MarketApi.offer e) as [o|]; [|done]. simpl.
    destruct (mapM MarketApi.offer pl) as [os'|]; [|done]. simpl.
    intros [= <-]. rewrite (IH os') by done. simpl. by rewrite <- app_assoc.
Qed.

End MarketPaging.

Section SellerPaging.
Context {S : Type}.
Variable h : pyval → S → result (option SellerApi.page) * S.

Lemma seller_loop_pages c n s pgs s' :
  seller_pages h c n s pgs s' →
  ∀ fuel pl, n = length pl → (length pgs ≤ fuel)%nat →
    SellerApi.get_offer_ids_loop h fuel c pl s = Some (Ok (pl ++ concat pgs), s').
Proof.
  induction 1 as [c n s s' p its Hh Hits Hend
                 |c n s s' p its rest s'' Hh Hits Hmore _ IH];
    intros [|fuel] pl -> Hfuel; simpl in Hfuel; try lia;
    cbn [SellerApi.get_offer_ids_loop];
    unfold Run.bind, Run.call, Run.lift; rewrite Hh; simpl;
    rewrite Hits; simpl; rewrite length_app.
  - rewrite Hend. simpl. by rewrite app_nil_r.
  - rewrite Hmore. rewrite IH; [by rewrite <- app_assoc|by rewrite length_app|lia].
Qed.

(** An endpoint whose [total] never equals the number of products
    collected keeps the loop running. *)
Lemma seller_loop_forever :
  (∀ c s n, ∃ p its s',
     h c s = (Ok (Some p), s')
     ∧ SellerApi.page_items p = Some its
     ∧ py_eq (SellerApi.page_total p) (PInt (Z.of_nat (n + length its))) = false) →
  ∀ fuel c pl s, SellerApi.get_offer_ids_loop h fuel c pl s = None.
Proof.
  intros Hh. induction fuel as [|fuel IH]; intros c pl s; [done|].
  destruct (Hh c s (length pl)) as (p & its & s' & Hp & Hits & Hmore).
  cbn [SellerApi.get_offer_ids_loop].
  unfold Run.bind, Run.call, Run.lift. rewrite Hp. simpl.
  rewrite Hits. simpl. rewrite length_app, Hmore. apply IH.
Qed.

End SellerPaging.

(** C7, counterexample: against an endpoint that keeps returning a
    non-empty cursor and no items, [get_offer_ids] of [market.py] neither
    returns nor raises, however long it runs: no amount of fuel gives an
    outcome. *)
Lemma get_offer_ids_stuck_remote_loops :
  ¬ ∃ fuel r, MarketApi.get_offer_ids stuck_remote fuel tt = Some r.
Proof.
  intros (fuel & r & Hrun). revert Hrun.
  unfold MarketApi.get_offer_ids, Run.bind.
  rewrite market_loop_forever; [done|].
  intros c s. by eexists _, _, _, _.
Qed.

(** The loops run forever against an endpoint that never reports
    exhaustion: [I] holds of what the loop has reached (cursor, number of
    products collected, state of the endpoint), and from there the
    endpoint answers with a page that does not end the loop and leads to
    where [I] holds again. *)
Lemma market_loop_never_exhausted {S}
    (h : pyval → S → result (option MarketApi.page) * S)
    (I : pyval → S → Prop) :
  (∀ c s, I c s → ∃ p its cur s',
     h c s = (Ok (Some p), s')
     ∧ MarketApi.offerMappingEntries p = Some its
     ∧ MarketApi.paging p = Some cur
     ∧ py_truthy (get cur "nextPageToken") = true
     ∧ I (get cur "nextPageToken") s') →
  ∀ fuel c pl s, I c s → MarketApi.get_offer_ids_loop h fuel c pl s = None.
Proof.
  intros Hh. induction fuel as [|fuel IH]; intros c pl s HI; [done|].
  destruct (Hh c s HI) as (p & its & cur & s' & Hp & Hits & Hcur & Hmore & HI').
  cbn [MarketApi.get_offer_ids_loop].
  unfold Run.bind, Run.call, Run.lift. rewrite Hp. simpl.
  rewrite Hits. simpl. rewrite Hcur. simpl. rewrite Hmore. simpl.
  by apply IH.
Qed.

Lemma seller_loop_never_exhausted {S}
    (h : pyval → S → result (option SellerApi.page) * S)
    (I : pyval → nat → S → Prop) :
  (∀ c n s, I c n s → ∃ p its s',
     h c s = (Ok (Some p), s')
     ∧ SellerApi.page_items p = Some its
     ∧ py_eq (SellerApi.page_total p) (PInt (Z.of_nat (n + length its))) = false
     ∧ I (SellerApi.page_last_id p) (n + length its)%nat s') →
  ∀ fuel c pl s, I c (length pl) s →
    SellerApi.get_offer_ids_loop h fuel c pl s = None.
Proof.
  intros Hh. induction fuel as [|fuel IH]; intros c pl s HI; [done|].
  destruct (Hh c (length pl) s HI) as (p & its & s' & Hp & Hits & Hmore & HI').
  cbn [SellerApi.get_offer_ids_loop].
  unfold Run.bind, Run.call, Run.lift. rewrite Hp. simpl.
  rewrite Hits. simpl. rewrite length_app, Hmore.
  apply IH. by rewrite length_app.
Qed.

(** C7, as the code has it: when the endpoint reports exhaustion after
    finitely many pages, [get_offer_ids] ends and returns the id of every
    item of these pages, in page order (both scripts); the loop has no
    guard, so against an endpoint that never reports exhaustion (from the
    first request on, every answer is a page that does not end the loop)
    it runs forever and raises nothing, in both scripts. *)
Theorem get_offer_ids_pages :
  (∀ S (h : pyval → S → result (option MarketApi.page) * S) s pgs s' os fuel,
     market_pages h (PStr "") s pgs s' →
     mapM MarketApi.offer (concat pgs) = Some os →
     (length pgs ≤ fuel)%nat →
     MarketApi.get_offer_ids h fuel s
     = Some (Ok (map (λ o, get o "shopSku") os), s'))
  ∧ (∀ S (h : pyval → S → result (option SellerApi.page) * S) s pgs s' fuel,
     seller_pages h (PStr "") 0 s pgs s' →
     (length pgs ≤ fuel)%nat →
     SellerApi.get_offer_ids h fuel s
     = Some (Ok (map (λ product, get product "offer_id") (concat pgs)), s'))
  ∧ (∀ S (h : pyval → S → result (option MarketApi.page) * S)
       (I : pyval → S → Prop) s,
     I (PStr "") s →
     (∀ c s, I c s → ∃ p its cur s',
        h c s = (Ok (Some p), s')
        ∧ MarketApi.offerMappingEntries p = Some its
        ∧ MarketApi.paging p = Some cur
        ∧ py_truthy (get cur "nextPageToken") = true
        ∧ I (get cur "nextPageToken") s') →
     ∀ fuel, MarketApi.get_offer_ids h fuel s = None)
  ∧ (∀ S (h : pyval → S → result (option SellerApi.page) * S)
       (I : pyval → nat → S → Prop) s,
     I (PStr "") 0%nat s →
     (∀ c n s, I c n s → ∃ p its s',
        h c s = (Ok (Some p), s')
        ∧ SellerApi.page_items p = Some its
        ∧ py_eq (SellerApi.page_total p) (PInt (Z.of_nat (n + length its))) = false
        ∧ I (SellerApi.page_last_id p) (n + length its)%nat s') →
     ∀ fuel, SellerApi.get_offer_ids h fuel s = None).
Proof.
  split; [|split; [|split]].
  - intros S h s pgs s' os fuel Hpgs Hos Hfuel.
    unfold MarketApi.get_offer_ids, Run.bind.
    rewrite (market_loop_pages h _ _ _ _ Hpgs fuel [] Hfuel). simpl.
    unfold Run.lift. by rewrite (shop_skus_all _ os [] Hos).
  - intros S h s pgs s' fuel Hpgs Hfuel.
    unfold SellerApi.get_offer_ids, Run.bind.
    rewrite (seller_loop_pages h _ _ _ _ _ Hpgs fuel [] eq_refl Hfuel). simpl.
    unfold Run.ret. by rewrite foldl_snoc.
  - intros S h I s HI Hh fuel. unfold MarketApi.get_offer_ids, Run.bind.
    by rewrite (market_loop_never_exhausted h I Hh fuel _ [] s HI).
  - intros S h I s HI Hh fuel. unfold SellerApi.get_offer_ids, Run.bind.
    by rewrite (seller_loop_never_exhausted h I Hh fuel _ [] s HI).
Qed.

Lemma get_offer_ids_pages_witness :
  MarketApi.get_offer_ids two_page_remote 2 tt
  = Some (Ok [PStr "A"; PStr "B"; PStr "C"], tt)
  ∧ (∀ fuel, MarketApi.get_offer_ids stuck_remote fuel tt = None)
  ∧ (∀ fuel, SellerApi.get_offer_ids stuck_seller_remote fuel tt = None).
Proof.
  destruct get_offer_ids_pages as (Hmarket & _ & Hmloop & Hsloop).
  split; [|split].
  - rewrite (Hmarket unit two_page_remote tt
               [[MarketApi.mk_entry (Some (<["shopSku" := PStr "A"]> ∅));
                 MarketApi.mk_entry (Some (<["shopSku" := PStr "B"]> ∅))];
                [MarketApi.mk_entry (Some (<["shopSku" := PStr "C"]> ∅))]]
               tt
               [<["shopSku" := PStr "A"]> ∅; <["shopSku" := PStr "B"]> ∅;
                <["shopSku" := PStr "C"]> ∅] 2%nat).
    + vm_compute. reflexivity.
    + eapply market_pages_next; [reflexivity..|].
      eapply market_pages_last; reflexivity.
    + reflexivity.
    + simpl. lia.
  - apply (Hmloop unit stuck_remote (λ _ _, True) tt I).
    intros c s _. by eexists _, _, _, _.
  - apply (Hsloop unit stuck_seller_remote (λ _ n _, n = 0%nat) tt eq_refl).
    intros c n s ->. by eexists _, [], _.
Defined.

(** * Further properties of the code *)

(** ** [divide] at its edges *)

(** The chunks of a positive step: never empty, never longer than the
    step. *)
Lemma divide_batches_bounds {A} (lst : list A) (n : Z) batches :
  0 < n → divide lst n = Ok batches →
  Forall (λ b, (0 < length b ≤ Z.to_nat n)%nat) batches.
Proof.
  intros Hn. rewrite divide_chunks by done. intros [= <-].
  destruct (div_ceil_bounds (Z.of_nat (length lst)) n ltac:(lia) Hn)
    as (Hq0 & Hup & Hlow).
  set (q := (Z.of_nat (length lst) - 0 + n - 1) / n) in *.
  apply Forall_forall. intros b Hb. apply list_elem_of_In in Hb.
  apply in_map_iff in Hb as (k & <- & Hk). apply in_seq in Hk.
  rewrite length_take, length_drop. nia.
Qed.

(** X1: a zero step makes [divide] raise [ValueError] (from [range]),
    and a negative step yields no chunk at all, whatever the list: the
    elements are dropped without an error. *)
Theorem divide_nonpositive_step {A} (lst : list A) (n : Z) :
  (n = 0 → divide lst n = Raise ValueError)
  ∧ (n < 0 → divide lst n = Ok []).
Proof.
  split.
  - intros ->. reflexivity.
  - intros Hn. unfold divide, py_range.
    destruct (Z.eqb_spec n 0) as [?|_]; [lia|].
    destruct (Z.ltb_spec 0 n) as [?|_]; [lia|].
    assert ((0 - Z.of_nat (length lst) - n - 1) / - n < 1) as Hq.
    { apply Z.div_lt_upper_bound; lia. }
    replace (Z.to_nat ((0 - Z.of_nat (length lst) - n - 1) / - n)) with 0%nat
      by lia.
    reflexivity.
Qed.

Lemma divide_nonpositive_step_witness :
  divide [1; 2; 3] 0 = Raise ValueError ∧ divide [1; 2; 3] (-2) = Ok [].
Proof.
  split.
  - apply (proj1 (divide_nonpositive_step [1; 2; 3] 0)). reflexivity.
  - apply (proj2 (divide_nonpositive_step [1; 2; 3] (-2))). lia.
Defined.

(** X2: for a positive step [n], [divide] yields [ceil(len(lst) / n)]
    chunks and none of them is empty; in particular an empty list yields
    no chunk, so that the callers' loops send nothing. *)
Theorem divide_chunk_count {A} (lst : list A) (n : Z) :
  0 < n →
  ∃ chunks,
    divide lst n = Ok chunks
    ∧ Z.of_nat (length chunks) = (Z.of_nat (length lst) + n - 1) / n
    ∧ Forall (λ c, c ≠ []) chunks
    ∧ (lst = [] → chunks = []).
Proof.
  intros Hn. destruct (divide lst n) as [chunks|e] eqn:Hd;
    [|by rewrite divide_chunks in Hd].
  exists chunks. split; [done|].
  pose proof (divide_batches_bounds lst n chunks Hn Hd) as Hb.
  rewrite divide_chunks in Hd by done. injection Hd as <-.
  destruct (div_ceil_bounds (Z.of_nat (length lst)) n ltac:(lia) Hn)
    as (Hq0 & Hup & Hlow).
  replace (Z.of_nat (length lst) - 0 + n - 1)
    with (Z.of_nat (length lst) + n - 1) in * by lia.
  split; [|split].
  - rewrite length_map, length_seq. lia.
  - eapply Forall_impl; [exact Hb|]. intros c Hc ->. simpl in Hc. lia.
  - intros ->. simpl. rewrite Z.div_small by lia. reflexivity.
Qed.

Lemma divide_chunk_count_witness :
  ∃ chunks,
    divide [1; 2; 3; 4; 5] 2 = Ok chunks
    ∧ Z.of_nat (length chunks) = (Z.of_nat (length [1; 2; 3; 4; 5]) + 2 - 1) / 2
    ∧ Forall (λ c, c ≠ []) chunks
    ∧ ([1; 2; 3; 4; 5] = [] → chunks = []).
Proof. apply (divide_chunk_count [1; 2; 3; 4; 5] 2). lia. Defined.

(** ** [price_conversion] as a function on strings *)

Lemma digits_of_no_period s : has_period (digits_of s) = false.
Proof.
  unfold has_period, digits_of. rewrite list_ascii_of_string_of_list_ascii.
  induction (list_ascii_of_string s) as [|a l IH]; [done|].
  simpl. destruct (is_digit a) eqn:Ha; [|done]. simpl. rewrite IH.
  destruct (Ascii.eqb_spec a "."); [|done]. subst. done.
Qed.

Lemma digits_of_idemp s : digits_of (digits_of s) = digits_of s.
Proof.
  unfold digits_of. rewrite list_ascii_of_string_of_list_ascii.
  f_equal. induction (list_ascii_of_string s) as [|a l IH]; [done|].
  simpl. destruct (is_digit a) eqn:Ha; [|done]. simpl. by rewrite Ha, IH.
Qed.

Lemma price_conversion_digits s :
  ∃ part, price_conversion (PStr s) = Ok (digits_of part).
Proof.
  unfold price_conversion. destruct (py_split_cons "." s) as (p & ps & ->).
  exists p. simpl. by rewrite re_sub_non_digits_filter.
Qed.

(** X3: [price_conversion] never fails on a string, and converting its
    result again changes nothing: the result is a fixed point. *)
Theorem price_conversion_idempotent (s : string) :
  ∃ r, price_conversion (PStr s) = Ok r
       ∧ price_conversion (PStr r) = Ok r.
Proof.
  destruct (price_conversion_digits s) as [part Hr].
  exists (digits_of part). split; [done|].
  unfold price_conversion.
  rewrite (py_split_no_sep _ (digits_of_no_period part)). simpl.
  by rewrite re_sub_non_digits_filter, digits_of_idemp.
Qed.

(** ** Quantity cells that are not strings *)

Lemma to_int_not_nil z :
  Z.to_int z ≠ Decimal.Pos Decimal.Nil ∧ Z.to_int z ≠ Decimal.Neg Decimal.Nil.
Proof.
  destruct z as [|p|p]; simpl; split; try done;
    intros [= H]; by apply DecimalPos.Unsigned.to_uint_nonnil in H.
Qed.

Lemma py_str_int_read z :
  NilZero.int_of_string (py_str (PInt z)) = Some (Z.to_int z).
Proof.
  simpl. destruct (to_int_not_nil z). by apply NilZero.isi.
Qed.

Lemma py_str_int_sentinels z :
  String.eqb (py_str (PInt z)) ">10" = false
  ∧ String.eqb (py_str (PInt z)) "1" = (z =? 1).
Proof.
  pose proof (py_str_int_read z) as Hread. split.
  - apply String.eqb_neq. intros Heq. by rewrite Heq in Hread.
  - destruct (Z.eqb_spec z 1) as [->|Hne]; [done|].
    apply String.eqb_neq. intros Heq. rewrite Heq in Hread.
    apply Hne. rewrite <- (DecimalZ.of_to z).
    injection Hread as <-. reflexivity.
Qed.

(** X4: a quantity cell holding an integer is passed through unchanged,
    negative values included, except the integer [1], which becomes [0]
    like the string ["1"]; a row without the quantity column makes the
    rule raise [TypeError]. *)
Theorem stock_of_integer_cell (w : row) :
  (∀ z, get w "Количество" = PInt z →
     stock_of w = Ok (if z =? 1 then 0 else z))
  ∧ (w !! "Количество" = None → stock_of w = Raise TypeError).
Proof.
  split.
  - intros z Hz. unfold stock_of. rewrite Hz.
    destruct (py_str_int_sentinels z) as [-> ->].
    by destruct (z =? 1).
  - intros Hnone. unfold stock_of, get. by rewrite Hnone.
Qed.

Lemma stock_of_integer_cell_witness :
  stock_of (quantity_row (PInt 1)) = Ok 0
  ∧ stock_of (quantity_row (PInt (-4))) = Ok (-4)
  ∧ stock_of (∅ : row) = Raise TypeError.
Proof.
  split; [|split].
  - apply (proj1 (stock_of_integer_cell (quantity_row (PInt 1))) 1). reflexivity.
  - apply (proj1 (stock_of_integer_cell (quantity_row (PInt (-4)))) (-4)).
    reflexivity.
  - apply (proj2 (stock_of_integer_cell ∅)). reflexivity.
Defined.

(** ** More on [create_stocks] *)

Lemma matched_app F1 F2 K :
  matched (F1 ++ F2) K = matched F1 K ++ matched F2 (remaining F1 K).
Proof.
  revert K. induction F1 as [|w F1 IH]; intros K; simpl; [done|].
  destruct (py_in (code w) K); simpl; by rewrite IH.
Qed.

Lemma remaining_app F1 F2 K :
  remaining (F1 ++ F2) K = remaining F2 (remaining F1 K).
Proof.
  revert K. induction F1 as [|w F1 IH]; intros K; simpl; [done|].
  destruct (py_in (code w) K); by rewrite IH.
Qed.

Lemma NoDup_fmap_eq {A B} (f : A → B) (l : list A) x y :
  NoDup (map f l) → x ∈ l → y ∈ l → f x = f y → x = y.
Proof.
  induction l as [|a l IH]; intros Hnd Hx Hy Hf; [by apply elem_of_nil in Hx|].
  simpl in Hnd. apply NoDup_cons in Hnd as [Hni Hnd].
  apply elem_of_cons in Hx as [->|Hx]; apply elem_of_cons in Hy as [->|Hy].
  - done.
  - exfalso. apply Hni. rewrite Hf. by apply (list_elem_of_fmap_2 f).
  - exfalso. apply Hni. rewrite <- Hf. by apply (list_elem_of_fmap_2 f).
  - by apply IH.
Qed.

Lemma seller_stock_ids F K new :
  Forall2 (emitted Seller.mk_stock) (matched F K) new →
  map Seller.offer_id
      (new ++ map (λ id, Seller.mk_stock id 0) (remaining F K)) ≡ₚ K.
Proof.
  intros Hnew. rewrite map_app, map_map, map_id.
  rewrite (emitted_ids Seller.mk_stock Seller.offer_id _ _ (λ _ _, eq_refl) Hnew).
  apply matched_remaining_perm.
Qed.

Lemma market_stock_ids date wh F K new :
  Forall2 (emitted (λ id q, Market.mk_stock id wh [Market.mk_item q "FIT" date]))
          (matched F K) new →
  map Market.sku
      (new ++ map (λ id, Market.mk_stock id wh [Market.mk_item 0 "FIT" date])
                  (remaining F K)) ≡ₚ K.
Proof.
  intros Hnew. rewrite map_app, map_map, map_id.
  rewrite (emitted_ids
             (λ id q, Market.mk_stock id wh [Market.mk_item q "FIT" date])
             Market.sku _ _ (λ _ _, eq_refl) Hnew).
  apply matched_remaining_perm.
Qed.

(** X5: whatever the list of known ids, duplicates included, the list
    [create_stocks] returns has exactly one entry per element of the
    list: as many entries as ids, and the same ids with the same numbers
    of occurrences. *)
Theorem create_stocks_one_entry_per_id (F : list row) (K : list pyval) :
  (∀ stocks K', Seller.create_stocks F K = (Ok stocks, K') →
     length stocks = length K ∧ map Seller.offer_id stocks ≡ₚ K)
  ∧ (∀ date wh stocks K', Market.create_stocks date F wh K = (Ok stocks, K') →
     length stocks = length K ∧ map Market.sku stocks ≡ₚ K).
Proof.
  split.
  - intros stocks K' (new & Hnew & -> & _)%seller_create_stocks_ok.
    pose proof (seller_stock_ids F K new Hnew) as Hperm.
    split; [|done]. apply Permutation_length in Hperm.
    by rewrite length_map in Hperm.
  - intros date wh stocks K' (new & Hnew & -> & _)%market_create_stocks_ok.
    pose proof (market_stock_ids date wh F K new Hnew) as Hperm.
    split; [|done]. apply Permutation_length in Hperm.
    by rewrite length_map in Hperm.
Qed.

Lemma create_stocks_one_entry_per_id_witness :
  length [Seller.mk_stock (PStr "A") 5; Seller.mk_stock (PStr "A") 0]
  = length [PStr "A"; PStr "A"]
  ∧ map Seller.offer_id
        [Seller.mk_stock (PStr "A") 5; Seller.mk_stock (PStr "A") 0]
    ≡ₚ [PStr "A"; PStr "A"].
Proof.
  apply (proj1 (create_stocks_one_entry_per_id
                  [mk_row (PStr "A") (PStr "5") (PStr "100.00 x")]
                  [PStr "A"; PStr "A"]) _ [PStr "A"]).
  vm_compute. reflexivity.
Defined.

Lemma code_is_str w : ∃ s, code w = PStr s.
Proof. unfold code. eauto. Qed.

(** X6: an id of the list that is not a string (a number or [None] in
    the listing's JSON) is matched by no feed row, even when its text
    equals a row's code, because the row's code is compared as a string:
    the id stays in the list and its only entry has quantity 0. *)
Theorem create_stocks_zeroes_non_string_id (F : list row) (K : list pyval)
    (id : pyval) :
  id ∈ K → (∀ s, id ≠ PStr s) →
  (∀ stocks K', Seller.create_stocks F K = (Ok stocks, K') →
     id ∈ K' ∧ Seller.mk_stock id 0 ∈ stocks
     ∧ ∀ e, e ∈ stocks → Seller.offer_id e = id → Seller.stock e = 0)
  ∧ (∀ date wh stocks K', Market.create_stocks date F wh K = (Ok stocks, K') →
     id ∈ K'
     ∧ Market.mk_stock id wh [Market.mk_item 0 "FIT" date] ∈ stocks
     ∧ ∀ e, e ∈ stocks → Market.sku e = id →
         Market.items e = [Market.mk_item 0 "FIT" date]).
Proof.
  intros Hid Hns.
  assert (id ∉ map code F) as Hni.
  { intros (w & -> & _)%(list_elem_of_fmap_1 code).
    destruct (code_is_str w) as [s Hs]. by apply (Hns s). }
  pose proof (remaining_unmatched F K id Hid Hni) as Hrem.
  split.
  - intros stocks K' (new & Hnew & -> & ->)%seller_create_stocks_ok.
    split; [done|]. split.
    + apply elem_of_app. right.
      by apply (list_elem_of_fmap_2 (λ id, Seller.mk_stock id 0)).
    + intros e [He|He]%elem_of_app Heid.
      * exfalso. clear -Hnew He Heid Hns.
        induction Hnew as [|w s M new (q & _ & ->) _ IH];
          [by apply elem_of_nil in He|].
        apply elem_of_cons in He as [->|He]; [|by apply IH].
        simpl in Heid. destruct (code_is_str w) as [t Ht].
        apply (Hns t). congruence.
      * by apply (list_elem_of_fmap_1 (λ id, Seller.mk_stock id 0))
          in He as (? & -> & _).
  - intros date wh stocks K' (new & Hnew & -> & ->)%market_create_stocks_ok.
    split; [done|]. split.
    + apply elem_of_app. right.
      by apply (list_elem_of_fmap_2
                  (λ id, Market.mk_stock id wh [Market.mk_item 0 "FIT" date])).
    + intros e [He|He]%elem_of_app Heid.
      * exfalso. clear -Hnew He Heid Hns.
        induction Hnew as [|w s M new (q & _ & ->) _ IH];
          [by apply elem_of_nil in He|].
        apply elem_of_cons in He as [->|He]; [|by apply IH].
        simpl in Heid. destruct (code_is_str w) as [t Ht].
        apply (Hns t). congruence.
      * by apply (list_elem_of_fmap_1
                    (λ id, Market.mk_stock id wh [Market.mk_item 0 "FIT" date]))
          in He as (? & -> & _).
Qed.

Lemma create_stocks_zeroes_non_string_id_witness :
  PInt 7 ∈ [PInt 7]
  ∧ Seller.mk_stock (PInt 7) 0 ∈ [Seller.mk_stock (PInt 7) 0].
Proof.
  assert (PInt 7 ∈ [PInt 7]) as Hin by (apply (bool_decide_unpack _); done).
  destruct (create_stocks_zeroes_non_string_id
              [mk_row (PInt 7) (PStr "5") (PStr "100.00 x")] [PInt 7] (PInt 7)
              Hin ltac:(done)) as [Hs _].
  destruct (Hs [Seller.mk_stock (PInt 7) 0] [PInt 7]) as (H1 & H2 & _);
    [vm_compute; reflexivity|].
  by split.
Defined.

Lemma Forall2_elem_of_l_r {A B} (R : A → B → Prop) l k x :
  Forall2 R l k → x ∈ l → ∃ y, y ∈ k ∧ R x y.
Proof.
  induction 1 as [|a b l k HR _ IH]; intros Hx; [by apply elem_of_nil in Hx|].
  apply elem_of_cons in Hx as [->|Hx].
  - exists b. split; [by left|done].
  - destruct (IH Hx) as (y & Hy & HRy). exists y. split; [by right|done].
Qed.

(** X7: with a duplicate-free list of known ids, the quantity sent for
    an id is that of the first feed row with this code; later rows with
    the same code change nothing. *)
Theorem create_stocks_first_row_wins (F1 F2 : list row) (w : row)
    (K : list pyval) :
  NoDup K → code w ∈ K → code w ∉ map code F1 →
  ∀ stocks K', Seller.create_stocks (F1 ++ w :: F2) K = (Ok stocks, K') →
    ∃ q, stock_of w = Ok q
         ∧ ∀ e, e ∈ stocks → Seller.offer_id e = code w → Seller.stock e = q.
Proof.
  intros Hnd Hk Hfirst stocks K'
    (new & Hnew & -> & _)%seller_create_stocks_ok.
  assert (w ∈ matched (F1 ++ w :: F2) K) as Hw.
  { rewrite matched_app. apply elem_of_app. right. simpl.
    rewrite (proj2 (py_in_code w _) (remaining_unmatched F1 K _ Hk Hfirst)).
    by left. }
  destruct (Forall2_elem_of_l_r _ _ _ _ Hnew Hw) as (s & Hs & q & Hq & ->).
  exists q. split; [done|]. intros e He Heid.
  pose proof (seller_stock_ids _ K new Hnew) as Hperm.
  assert (NoDup (map Seller.offer_id
                   (new ++ map (λ id, Seller.mk_stock id 0)
                               (remaining (F1 ++ w :: F2) K)))) as Hnd'.
  { by rewrite Hperm. }
  rewrite (NoDup_fmap_eq Seller.offer_id _ e (Seller.mk_stock (code w) q)
             Hnd' He); [done| |done].
  apply elem_of_app. by left.
Qed.

Lemma create_stocks_first_row_wins_witness :
  ∃ q, stock_of (mk_row (PStr "A") (PStr "5") (PStr "100.00 x")) = Ok q
       ∧ ∀ e, e ∈ [Seller.mk_stock (PStr "A") 5; Seller.mk_stock (PStr "B") 0] →
           Seller.offer_id e = code (mk_row (PStr "A") (PStr "5") (PStr "100.00 x")) →
           Seller.stock e = q.
Proof.
  assert (NoDup [PStr "A"; PStr "B"]) as Hnd
    by (apply (bool_decide_unpack _); vm_compute; reflexivity).
  apply (create_stocks_first_row_wins []
           [mk_row (PStr "A") (PStr "9") (PStr "1.00 x")]
           (mk_row (PStr "A") (PStr "5") (PStr "100.00 x"))
           [PStr "A"; PStr "B"] Hnd
           ltac:(apply (bool_decide_unpack _); vm_compute; reflexivity)
           ltac:(apply not_elem_of_nil) _ [PStr "B"]).
  vm_compute. reflexivity.
Defined.

Lemma feed_pass_raise_split {E} (entry : pyval → Z → E) F :
  ∀ acc K e K',
    feed_pass entry F acc K = (Raise e, K') →
    ∃ F1 w F2,
      F = F1 ++ w :: F2 ∧ K' = remaining F1 K ∧ code w ∈ K'
      ∧ stock_of w = Raise e
      ∧ Forall (λ w', ∃ q, stock_of w' = Ok q) (matched F1 K).
Proof.
  induction F as [|w F IH]; intros acc K e K'; [done|].
  rewrite feed_pass_step.
  destruct (py_in (code w) K) eqn:Hin.
  - destruct (stock_of w) as [q|e'] eqn:Hq.
    + intros (F1 & w' & F2 & -> & -> & Hw' & He & Hall)%IH.
      exists (w :: F1), w', F2. simpl. rewrite Hin.
      repeat split; try done. constructor; [by exists q|done].
    + intros [= -> <-]. exists [], w, F. simpl.
      repeat split; try done. by apply py_in_code.
  - intros (F1 & w' & F2 & -> & -> & Hw' & He & Hall)%IH.
    exists (w :: F1), w', F2. simpl. rewrite Hin. by repeat split.
Qed.

(** X8: when [create_stocks] raises, the caller's list is left half
    updated: the ids matched by the rows before the failing one are
    already removed, the failing row's id is still in it, and the error
    is the one of that row's quantity. *)
Theorem create_stocks_raise_leaves_partial_list (F : list row)
    (K : list pyval) :
  (∀ e K', Seller.create_stocks F K = (Raise e, K') →
     ∃ F1 w F2,
       F = F1 ++ w :: F2 ∧ K' = remaining F1 K ∧ code w ∈ K'
       ∧ stock_of w = Raise e
       ∧ ∀ w', w' ∈ matched F1 K → code w' ∈ K ∧ ∃ q, stock_of w' = Ok q)
  ∧ (∀ date wh e K', Market.create_stocks date F wh K = (Raise e, K') →
     ∃ F1 w F2,
       F = F1 ++ w :: F2 ∧ K' = remaining F1 K ∧ code w ∈ K'
       ∧ stock_of w = Raise e
       ∧ ∀ w', w' ∈ matched F1 K → code w' ∈ K ∧ ∃ q, stock_of w' = Ok q).
Proof.
  assert (∀ F1 w', w' ∈ matched F1 K → code w' ∈ K) as Hmk.
  { intros F1 w' Hw'. rewrite <- (matched_remaining_perm F1 K).
    apply elem_of_app. left. by apply (list_elem_of_fmap_2 code). }
  split.
  - intros e K'. unfold Seller.create_stocks, Ids.bind.
    rewrite seller_feed_pass.
    destruct (feed_pass _ F [] K) as [[out|e'] K1] eqn:Hrun; [done|].
    intros [= <- <-].
    apply feed_pass_raise_split in Hrun
      as (F1 & w & F2 & -> & -> & Hw & He & Hall).
    exists F1, w, F2. repeat split; try done; [by eapply Hmk|].
    rewrite Forall_forall in Hall. by apply Hall.
  - intros date wh e K'. unfold Market.create_stocks, Ids.bind.
    rewrite market_feed_pass.
    destruct (feed_pass _ F [] K) as [[out|e'] K1] eqn:Hrun; [done|].
    intros [= <- <-].
    apply feed_pass_raise_split in Hrun
      as (F1 & w & F2 & -> & -> & Hw & He & Hall).
    exists F1, w, F2. repeat split; try done; [by eapply Hmk|].
    rewrite Forall_forall in Hall. by apply Hall.
Qed.

Lemma create_stocks_raise_leaves_partial_list_witness :
  ∃ F1 w F2,
    [mk_row (PStr "A") (PStr "5") (PStr "100.00 x");
     mk_row (PStr "B") (PStr "many") (PStr "200.00 x")] = F1 ++ w :: F2
    ∧ [PStr "B"; PStr "C"] = remaining F1 ids_ex ∧ code w ∈ [PStr "B"; PStr "C"]
    ∧ stock_of w = Raise ValueError
    ∧ ∀ w', w' ∈ matched F1 ids_ex → code w' ∈ ids_ex ∧ ∃ q, stock_of w' = Ok q.
Proof.
  apply (proj1 (create_stocks_raise_leaves_partial_list
                  [mk_row (PStr "A") (PStr "5") (PStr "100.00 x");
                   mk_row (PStr "B") (PStr "many") (PStr "200.00 x")] ids_ex)).
  vm_compute. reflexivity.
Defined.

Lemma feed_pass_no_ids {E} (entry : pyval → Z → E) F acc :
  feed_pass entry F acc [] = (Ok acc, []).
Proof.
  revert acc. induction F as [|w F IH]; intros acc; [done|].
  rewrite feed_pass_step. simpl. apply IH.
Qed.

(** X9: with no known id, [create_stocks] and [create_prices] return
    the empty list for every feed, also one whose rows could not be
    converted; with an empty feed, [create_stocks] returns a zero entry
    for every known id and leaves the list as it was, and [create_prices]
    returns nothing. *)
Theorem create_stocks_empty_inputs :
  (∀ F, Seller.create_stocks F [] = (Ok [], [])
        ∧ Seller.create_prices F [] = (Ok [], [])
        ∧ Market.create_prices F [] = (Ok [], [])
        ∧ ∀ date wh, Market.create_stocks date F wh [] = (Ok [], []))
  ∧ (∀ K, Seller.create_stocks [] K
          = (Ok (map (λ id, Seller.mk_stock id 0) K), K)
          ∧ Seller.create_prices [] K = (Ok [], K)
          ∧ Market.create_prices [] K = (Ok [], K)
          ∧ ∀ date wh, Market.create_stocks date [] wh K
              = (Ok (map (λ id, Market.mk_stock id wh [Market.mk_item 0 "FIT" date]) K),
                 K)).
Proof.
  split.
  - intros F. split; [|split; [|split]].
    + unfold Seller.create_stocks, Ids.bind.
      by rewrite seller_feed_pass, feed_pass_no_ids.
    + unfold Seller.create_prices. generalize (@nil Seller.price_entry).
      induction F as [|w F IH]; intros acc; [|by apply IH].
      (* the accumulator is returned as it is *)
      done.
    + unfold Market.create_prices. generalize (@nil Market.price_entry).
      induction F as [|w F IH]; intros acc; [|by apply IH]. done.
    + intros date wh. unfold Market.create_stocks, Ids.bind.
      by rewrite market_feed_pass, feed_pass_no_ids.
  - intros K. split; [|split; [|split]]; try done.
    + unfold Seller.create_stocks, Ids.bind. simpl.
      unfold Ids.ret. by rewrite foldl_snoc.
    + intros date wh. unfold Market.create_stocks, Ids.bind. simpl.
      unfold Ids.ret. by rewrite foldl_snoc.
Qed.

(** ** Errors and values of [create_prices] *)

Lemma digit_is_read a d :
  is_digit a = true → ∃ u, uint_of_char a (Some d) = Some u.
Proof.
  destruct a as [[] [] [] [] [] [] [] []]; intros H;
    try (cbv in H; discriminate H); eexists; reflexivity.
Qed.

Lemma digits_of_cons a s :
  digits_of (String a s)
  = if is_digit a then String a (digits_of s) else digits_of s.
Proof.
  rewrite <- !re_sub_non_digits_filter. simpl.
  by destruct (is_digit a).
Qed.

Lemma digits_of_read s : ∃ u, NilEmpty.uint_of_string (digits_of s) = Some u.
Proof.
  induction s as [|a s [u IH]]; [by exists Decimal.Nil|].
  rewrite digits_of_cons. destruct (is_digit a) eqn:Ha; [|by exists u].
  cbn [NilEmpty.uint_of_string]. rewrite IH. by apply digit_is_read.
Qed.

(** [int] of a string of digits: the number read, never negative, or
    [ValueError] when there is no digit. *)
Lemma py_int_digits s :
  (digits_of s = "" ∧ py_int (PStr (digits_of s)) = Raise ValueError)
  ∨ (∃ v, py_int (PStr (digits_of s)) = Ok v ∧ 0 ≤ v).
Proof.
  destruct (digits_of s) as [|a r] eqn:Hd; [by left|]. right.
  destruct (digits_of_read s) as [u Hu]. rewrite Hd in Hu.
  exists (Z.of_uint u). cbn [py_int].
  rewrite (int_of_string_numeric (String a r) u ltac:(discriminate) Hu).
  split; [done|].
  unfold Z.of_uint. lia.
Qed.

Lemma price_conversion_raise v e :
  price_conversion v = Raise e → e = AttributeError ∧ ∀ s, v ≠ PStr s.
Proof.
  destruct v as [|b|z|s]; simpl; try (intros [= <-]; by split).
  destruct (price_conversion_digits s) as [part Hp]. simpl in Hp.
  by rewrite Hp.
Qed.

Lemma seller_prices_feed_raise F acc K e K' :
  Seller.create_prices_feed F acc K = (Raise e, K') →
  e = AttributeError
  ∧ ∃ w, w ∈ F ∧ code w ∈ K ∧ ∀ s, get w "Цена" ≠ PStr s.
Proof.
  revert acc. induction F as [|w F IH]; intros acc; [done|].
  cbn [Seller.create_prices_feed]. unfold Ids.bind, Ids.contains, Ids.lift.
  fold (code w). destruct (py_in (code w) K) eqn:Hin.
  - apply py_in_code in Hin.
    destruct (price_conversion _) as [s|e'] eqn:Hs.
    + intros (-> & w' & Hw' & Hk & Hp)%IH. split; [done|].
      exists w'. split; [by right|done].
    + intros [= <- _]. apply price_conversion_raise in Hs as [-> Hs].
      split; [done|]. exists w. split; [by left|done].
  - intros (-> & w' & Hw' & Hk & Hp)%IH. split; [done|].
    exists w'. split; [by right|done].
Qed.

Lemma price_conversion_non_string v :
  (∀ s, v ≠ PStr s) → price_conversion v = Raise AttributeError.
Proof. intros Hv. destruct v as [|b|z|s]; try done. by destruct (Hv s). Qed.

(** X10: the seller's [create_prices] fails exactly when some feed row
    whose code is a known id has a price cell that is not a string (for
    instance a row without the price column); the exception is then
    [AttributeError] and the list of ids is unchanged. *)
Theorem seller_create_prices_errors (F : list row) (K : list pyval) :
  ((∃ e K', Seller.create_prices F K = (Raise e, K'))
   ↔ ∃ w, w ∈ F ∧ code w ∈ K ∧ ∀ s, get w "Цена" ≠ PStr s)
  ∧ (∀ e K', Seller.create_prices F K = (Raise e, K') →
       e = AttributeError ∧ K' = K).
Proof.
  split; [split|].
  - intros (e & K' & Hrun). unfold Seller.create_prices in Hrun.
    by apply seller_prices_feed_raise in Hrun as [_ Hw].
  - intros (w & Hw & Hk & Hp). unfold Seller.create_prices.
    destruct (Seller.create_prices_feed F [] K) as [[prices|e] K'] eqn:Hrun;
      [|by exists e, K'].
    exfalso. apply seller_prices_feed_ok in Hrun as (new & _ & Hnew).
    assert (w ∈ filter (λ w, code w ∈ K) F) as Hwf
      by (by apply list_elem_of_filter).
    destruct (Forall2_elem_of_l _ _ _ _ Hnew Hwf) as (p & s & Hs & _).
    by rewrite (price_conversion_non_string _ Hp) in Hs.
  - intros e K' Hrun.
    pose proof (seller_prices_feed_ids F [] K) as HK.
    unfold Seller.create_prices in Hrun. rewrite Hrun in HK. simpl in HK.
    by apply seller_prices_feed_raise in Hrun as [-> _].
Qed.

Lemma seller_create_prices_errors_witness :
  (∃ e K', Seller.create_prices [<["Код" := PStr "A"]> ∅] ids_ex = (Raise e, K'))
  ∧ Seller.create_prices [<["Код" := PStr "A"]> ∅] ids_ex
    = (Raise AttributeError, ids_ex).
Proof.
  destruct (seller_create_prices_errors [<["Код" := PStr "A"]> ∅] ids_ex)
    as [Hiff Herr].
  assert (∃ e K', Seller.create_prices [<["Код" := PStr "A"]> ∅] ids_ex
                  = (Raise e, K')) as Hraise.
  { apply Hiff. exists (<["Код" := PStr "A"]> ∅).
    split; [by left|]. split; [|done].
    apply (bool_decide_unpack _). vm_compute. reflexivity. }
  split; [exact Hraise|].
  destruct Hraise as (e & K' & Hrun).
  destruct (Herr e K' Hrun) as [-> ->]. exact Hrun.
Defined.

Lemma market_prices_feed_step w F acc K :
  Market.create_prices_feed (w :: F) acc K =
    if py_in (code w) K then
      match market_price_of w with
      | Ok v => Market.create_prices_feed F
                  (acc ++ [Market.mk_price (code w) (Market.mk_value v "RUR")]) K
      | Raise e => (Raise e, K)
      end
    else Market.create_prices_feed F acc K.
Proof.
  cbn [Market.create_prices_feed].
  unfold Ids.bind, Ids.contains, Ids.lift, market_price_of. fold (code w).
  destruct (py_in (code w) K); [|done].
  destruct (price_conversion _) as [s|e]; [|done]. simpl.
  by destruct (py_int (PStr s)).
Qed.

Lemma market_price_of_raise w e :
  market_price_of w = Raise e
  ↔ (e = AttributeError ∧ ∀ s, get w "Цена" ≠ PStr s)
    ∨ (e = ValueError ∧ price_conversion (get w "Цена") = Ok "").
Proof.
  unfold market_price_of. split.
  - destruct (price_conversion _) as [s|e'] eqn:Hs; cbn [rbind].
    + intros Hv. right.
      destruct (get w "Цена") as [| | |p] eqn:Hp; try done.
      destruct (price_conversion_digits p) as [part Hpart].
      rewrite Hs in Hpart. injection Hpart as ->.
      destruct (py_int_digits part) as [[Hd He]|(v & Hv' & _)];
        [|congruence].
      split; [congruence|by rewrite Hd].
    + intros [= <-]. left. by apply price_conversion_raise in Hs as [-> Hs].
  - intros [[-> Hp]|[-> Hs]].
    + by rewrite (price_conversion_non_string _ Hp).
    + by rewrite Hs.
Qed.

Lemma market_prices_feed_first_bad F1 w F2 K e :
  code w ∈ K →
  (∀ w', w' ∈ F1 → code w' ∈ K → ∃ v, market_price_of w' = Ok v) →
  market_price_of w = Raise e →
  ∀ acc, Market.create_prices_feed (F1 ++ w :: F2) acc K = (Raise e, K).
Proof.
  intros Hk Hgood He. induction F1 as [|w1 F1 IH]; intros acc; simpl app.
  - rewrite market_prices_feed_step, (proj2 (py_in_code w K) Hk). by rewrite He.
  - rewrite market_prices_feed_step.
    assert (∀ w', w' ∈ F1 → code w' ∈ K → ∃ v, market_price_of w' = Ok v)
      as Hgood' by (intros w' Hw'; apply Hgood; by right).
    destruct (py_in (code w1) K) eqn:Hin; [|by apply IH].
    apply py_in_code in Hin.
    destruct (Hgood w1 ltac:(by left) Hin) as [v ->]. by apply IH.
Qed.

Lemma market_prices_feed_raise_split F :
  ∀ acc K e K',
    Market.create_prices_feed F acc K = (Raise e, K') →
    ∃ F1 w F2,
      F = F1 ++ w :: F2 ∧ code w ∈ K
      ∧ (∀ w', w' ∈ F1 → code w' ∈ K → ∃ v, market_price_of w' = Ok v)
      ∧ market_price_of w = Raise e.
Proof.
  induction F as [|w F IH]; intros acc K e K'; [done|].
  rewrite market_prices_feed_step.
  destruct (py_in (code w) K) eqn:Hin.
  - destruct (market_price_of w) as [v|e'] eqn:Hv.
    + intros (F1 & w' & F2 & -> & Hk & Hgood & He)%IH.
      exists (w :: F1), w', F2. repeat split; try done.
      intros w'' [->|Hw'']%elem_of_cons Hk''; [by exists v|by apply Hgood].
    + intros [= <- _]. exists [], w, F. repeat split; try done.
      * by apply py_in_code.
      * intros w' Hw'. by apply elem_of_nil in Hw'.
  - intros (F1 & w' & F2 & -> & Hk & Hgood & He)%IH.
    exists (w :: F1), w', F2. repeat split; try done.
    intros w'' [->|Hw'']%elem_of_cons Hk''; [|by apply Hgood].
    apply py_in_code in Hk''. congruence.
Qed.

(** X11: every entry the market's [create_prices] returns has currency
    ["RUR"] and a price that is not negative.  It fails exactly when some
    feed row whose code is a known id has a price that cannot be
    converted, with the exception of the first such row: [AttributeError]
    when the price cell is not a string, [ValueError] when the price has
    no digit before the first period (the seller's version sends the empty
    price); the list of ids is unchanged then. *)
Theorem market_create_prices_values (F : list row) (K : list pyval) :
  (∀ prices K', Market.create_prices F K = (Ok prices, K') →
     Forall (λ p, 0 ≤ Market.value (Market.price p)
                  ∧ Market.currencyId (Market.price p) = "RUR") prices)
  ∧ (∀ F1 w F2 e, F = F1 ++ w :: F2 → code w ∈ K →
       (∀ w', w' ∈ F1 → code w' ∈ K → ∃ v, market_price_of w' = Ok v) →
       market_price_of w = Raise e →
       Market.create_prices F K = (Raise e, K))
  ∧ (∀ e K', Market.create_prices F K = (Raise e, K') →
       K' = K
       ∧ ∃ F1 w F2,
           F = F1 ++ w :: F2 ∧ code w ∈ K
           ∧ (∀ w', w' ∈ F1 → code w' ∈ K → ∃ v, market_price_of w' = Ok v)
           ∧ market_price_of w = Raise e)
  ∧ (∀ w e, market_price_of w = Raise e
            ↔ (e = AttributeError ∧ ∀ s, get w "Цена" ≠ PStr s)
              ∨ (e = ValueError ∧ price_conversion (get w "Цена") = Ok "")).
Proof.
  split; [|split; [|split]].
  - intros prices K' (new & -> & Hnew)%market_prices_feed_ok. simpl.
    induction Hnew as [|w p M new (s & v & Hs & Hv & ->) _ IH]; [done|].
    constructor; [|done]. simpl. split; [|done].
    destruct (get w "Цена") as [| | |t]; try done.
    destruct (price_conversion_digits t) as [part Hpart].
    rewrite Hs in Hpart. injection Hpart as ->.
    destruct (py_int_digits part) as [[_ He]|(v' & Hv' & Hpos)]; congruence.
  - intros F1 w F2 e -> Hk Hgood He. unfold Market.create_prices.
    by apply market_prices_feed_first_bad.
  - intros e K' Hrun. unfold Market.create_prices in Hrun.
    pose proof (market_prices_feed_ids F [] K) as HK.
    rewrite Hrun in HK. simpl in HK. split; [done|].
    by apply market_prices_feed_raise_split in Hrun.
  - apply market_price_of_raise.
Qed.

Lemma market_create_prices_values_witness :
  Forall (λ p, 0 ≤ Market.value (Market.price p)
               ∧ Market.currencyId (Market.price p) = "RUR")
         [Market.mk_price (PStr "A") (Market.mk_value 100 "RUR");
          Market.mk_price (PStr "B") (Market.mk_value 200 "RUR")]
  ∧ Market.create_prices
      [mk_row (PStr "A") (PStr "5") (PStr "100.00 x");
       mk_row (PStr "B") (PStr "5") (PStr "n/a");
       <["Код" := PStr "C"]> ∅] ids_ex
    = (Raise ValueError, ids_ex).
Proof.
  split.
  - apply (proj1 (market_create_prices_values feed_ex ids_ex) _ ids_ex).
    vm_compute. reflexivity.
  - destruct (market_create_prices_values
                [mk_row (PStr "A") (PStr "5") (PStr "100.00 x");
                 mk_row (PStr "B") (PStr "5") (PStr "n/a");
                 <["Код" := PStr "C"]> ∅] ids_ex) as (_ & Hbad & _).
    apply (Hbad [mk_row (PStr "A") (PStr "5") (PStr "100.00 x")]
             (mk_row (PStr "B") (PStr "5") (PStr "n/a"))
             [<["Код" := PStr "C"]> ∅] ValueError).
    + reflexivity.
    + apply (bool_decide_unpack _). vm_compute. reflexivity.
    + intros w' Hw' _. apply elem_of_cons in Hw' as [->|Hw'];
        [by exists 100|by apply elem_of_nil in Hw'].
    + reflexivity.
Defined.

(** ** Sending in batches: the upload coroutines and [main] of [seller.py] *)

Lemma run_bind_inv {S A B} (m : Run.M S A) (k : A → Run.M S B) s r s2 :
  Run.bind m k s = Some (r, s2) →
  (∃ e, m s = Some (Raise e, s2) ∧ r = Raise e)
  ∨ (∃ a s1, m s = Some (Ok a, s1) ∧ k a s1 = Some (r, s2)).
Proof.
  unfold Run.bind. destruct (m s) as [[[a|e] s1]|]; [|  |done].
  - intros Hk. right. eauto.
  - intros [= <- <-]. left. eauto.
Qed.

Lemma run_lift_ok {S A} (r : result A) (s s' : S) a :
  Run.lift r s = Some (Ok a, s') → r = Ok a ∧ s' = s.
Proof. unfold Run.lift. by intros [= -> ->]. Qed.

Lemma divide_batches_concat {A} (lst : list A) (n : Z) batches :
  0 < n → divide lst n = Ok batches → concat batches = lst.
Proof.
  intros Hn. rewrite divide_chunks by done. intros [= <-].
  destruct (div_ceil_bounds (Z.of_nat (length lst)) n ltac:(lia) Hn)
    as (Hq0 & Hup & _).
  rewrite chunks_concat. simpl. apply take_ge. nia.
Qed.

Lemma Forall2_elem_of_r {A B} (R : A → B → Prop) l k y :
  Forall2 R l k → y ∈ k → ∃ x, x ∈ l ∧ R x y.
Proof.
  induction 1 as [|a b l k HR _ IH]; intros Hy; [by apply elem_of_nil in Hy|].
  apply elem_of_cons in Hy as [->|Hy].
  - exists a. split; [by left|done].
  - destruct (IH Hy) as (x & Hx & HRx). exists x. split; [by right|done].
Qed.

Section SellerSending.
Context {St : Type}.
Variable api : SellerApi.remote St.

(** A sending loop always ends; it records the batches it has sent, in
    order, up to and including the first one the endpoint refuses. *)
Lemma seller_send_loop {B} (ev : B → SellerApi.event)
    (upd : B → St → result unit * St) batches :
  ∀ w : SellerApi.world (St:=St), ∃ r w' k,
    Run.for_each (λ b, exec SellerApi.emit (ev b) then
                       Run.call (SellerApi.on_remote (upd b))) batches w
    = Some (r, w')
    ∧ (k ≤ length batches)%nat
    ∧ w'.2 = w.2 ++ map ev (take k batches)
    ∧ (r = Ok tt → k = length batches).
Proof.
  set (f := λ b, exec SellerApi.emit (ev b) then
                 Run.call (SellerApi.on_remote (upd b))).
  induction batches as [|b l IH]; intros w.
  - exists (Ok tt), w, 0%nat. simpl. by rewrite app_nil_r.
  - cbn [Run.for_each]. unfold Run.bind at 1.
    assert (f b w = Some (let '(r, st) := upd b w.1 in
                          (r, (st, w.2 ++ [ev b])))) as ->.
    { unfold f, Run.bind, SellerApi.emit, Run.call, SellerApi.on_remote.
      reflexivity. }
    destruct (upd b w.1) as [[[]|e] st].
    + destruct (IH (st, w.2 ++ [ev b])) as (r & w' & k & Hrun & Hk & Htr & Hok).
      exists r, w', (S k). rewrite Hrun. split; [done|].
      split; [simpl; lia|]. split; [|intros Hr; simpl; by rewrite Hok].
      rewrite Htr. simpl. by rewrite <- app_assoc.
    + exists (Raise e), (st, w.2 ++ [ev b]), 1%nat.
      split; [done|]. split; [simpl; lia|]. split; [|done].
      simpl. by destruct l.
Qed.

Lemma seller_with_ids_inv {A} (m : Ids.M A) ids (w : SellerApi.world (St:=St))
    r w' :
  SellerApi.with_ids m ids w = Some (r, w') →
  w' = w ∧ ∃ ids', m ids = (match r with Ok a => Ok a.1 | Raise e => Raise e end, ids')
                   ∧ ∀ a, r = Ok a → a.2 = ids'.
Proof.
  unfold SellerApi.with_ids. destruct (m ids) as [[a|e] ids'].
  - intros [= <- <-]. split; [done|]. exists ids'. split; [done|].
    by intros ? [= <-].
  - intros [= <- <-]. split; [done|]. exists ids'. by split.
Qed.

Lemma seller_call_trace {A} (h : St → result A * St)
    (w : SellerApi.world (St:=St)) r w' :
  Run.call (SellerApi.on_remote h) w = Some (r, w') → w'.2 = w.2.
Proof.
  unfold Run.call, SellerApi.on_remote. destruct (h w.1). by intros [= <- <-].
Qed.

(** X12: when [upload_stocks] of [seller.py] returns [(not_empty,
    stocks)], it has sent exactly [stocks], in order, in batches of 1 to
    100 entries; [not_empty] holds the entries of [stocks] with a
    non-zero quantity, and each of them comes from a feed row, with that
    row's quantity. *)
Theorem seller_upload_stocks_result fuel F
    (w0 w1 : SellerApi.world (St:=St)) not_empty stocks :
  SellerUpload.upload_stocks api fuel F w0 = Some (Ok (not_empty, stocks), w1) →
  (∃ batches,
     w1.2 = w0.2 ++ map SellerApi.Sent_stocks batches
     ∧ concat batches = stocks
     ∧ Forall (λ b, (0 < length b ≤ 100)%nat) batches)
  ∧ (∀ e, e ∈ not_empty ↔ e ∈ stocks ∧ Seller.stock e ≠ 0)
  ∧ (∀ e, e ∈ not_empty →
       ∃ w, w ∈ F ∧ Seller.offer_id e = code w
            ∧ stock_of w = Ok (Seller.stock e)).
Proof.
  unfold SellerUpload.upload_stocks. intros Hrun.
  apply run_bind_ok in Hrun as (ids & wa & Hids%seller_listing_trace & Hrun).
  apply run_bind_ok in Hrun as ([stocks' K'] & wb & [Hcs ->]%with_ids_ok & Hrun).
  cbn [fst snd] in Hcs, Hrun.
  apply run_bind_ok in Hrun as (bs & wc & Hdiv & Hrun).
  apply run_lift_ok in Hdiv as [Hdiv ->].
  apply run_bind_ok in Hrun as ([] & wd & Hloop & Hrun).
  injection Hrun as <- <- <-.
  destruct (seller_send_loop SellerApi.Sent_stocks
              (SellerApi.update_stocks api) bs wa)
    as (r & w' & k & Hrun' & Hk & Htr & Hok).
  rewrite Hloop in Hrun'. injection Hrun' as <- <-.
  rewrite (Hok eq_refl), firstn_all in Htr.
  assert (∀ e, e ∈ List.filter (λ entry, negb (Seller.stock entry =? 0)) stocks'
               ↔ e ∈ stocks' ∧ Seller.stock e ≠ 0) as Hne.
  { intros e. rewrite !list_elem_of_In, filter_In, negb_true_iff, Z.eqb_neq.
    done. }
  split; [|split; [done|]].
  - exists bs. split; [by rewrite Htr, Hids|].
    split; [apply (divide_batches_concat stocks' 100 bs); [lia|done]|].
    eapply Forall_impl;
      [apply (divide_batches_bounds stocks' 100 bs); [lia|done]|].
    intros b Hb. simpl in Hb. lia.
  - intros e [He Hnz]%Hne.
    apply seller_create_stocks_ok in Hcs as (new & Hnew & -> & _).
    apply elem_of_app in He as [He|He].
    + destruct (Forall2_elem_of_r _ _ _ _ Hnew He) as (w & Hw & q & Hq & ->).
      exists w. split; [|done].
      eapply elem_of_sublist; [exact Hw|apply matched_sublist].
    + apply (list_elem_of_fmap_1 (λ id, Seller.mk_stock id 0)) in He
        as (id & -> & _). done.
Qed.

End SellerSending.

Lemma seller_upload_stocks_result_witness :
  ∃ batches,
    [SellerApi.Sent_stocks
       [Seller.mk_stock (PStr "A") 5; Seller.mk_stock (PStr "B") 100;
        Seller.mk_stock (PStr "C") 0]]
    = [] ++ map SellerApi.Sent_stocks batches
    ∧ concat batches
      = [Seller.mk_stock (PStr "A") 5; Seller.mk_stock (PStr "B") 100;
         Seller.mk_stock (PStr "C") 0]
    ∧ Forall (λ b, (0 < length b ≤ 100)%nat) batches.
Proof.
  apply (seller_upload_stocks_result (one_page_remote ids_ex feed_ex) 1
           feed_ex (tt, [])
           (tt, [SellerApi.Sent_stocks
                   [Seller.mk_stock (PStr "A") 5; Seller.mk_stock (PStr "B") 100;
                    Seller.mk_stock (PStr "C") 0]])
           [Seller.mk_stock (PStr "A") 5; Seller.mk_stock (PStr "B") 100]
           [Seller.mk_stock (PStr "A") 5; Seller.mk_stock (PStr "B") 100;
            Seller.mk_stock (PStr "C") 0]).
  vm_compute. reflexivity.
Defined.

(** X13: when [upload_prices] of [seller.py] returns [prices], these are
    the entries of the feed rows whose code is among the freshly listed
    ids, in feed order, and exactly they have been sent, in order, in
    batches of 1 to 1000 entries. *)
Theorem seller_upload_prices_result {St} (api : SellerApi.remote St) fuel F
    (w0 w1 : SellerApi.world (St:=St)) prices :
  SellerUpload.upload_prices api fuel F w0 = Some (Ok prices, w1) →
  ∃ ids wa batches,
    SellerApi.get_offer_ids
      (λ c, SellerApi.on_remote (SellerApi.get_product_list api c)) fuel w0
    = Some (Ok ids, wa)
    ∧ Forall2 (λ w p, Seller.price_offer_id p = code w
                      ∧ price_conversion (get w "Цена") = Ok (Seller.price p))
              (filter (λ w, code w ∈ ids) F) prices
    ∧ w1.2 = w0.2 ++ map SellerApi.Sent_prices batches
    ∧ concat batches = prices
    ∧ Forall (λ b, (0 < length b ≤ 1000)%nat) batches.
Proof.
  unfold SellerUpload.upload_prices. intros Hrun.
  apply run_bind_ok in Hrun as (ids & wa & Hids & Hrun).
  pose proof (seller_listing_trace api fuel w0 _ _ Hids) as Htr0.
  apply run_bind_ok in Hrun as ([prices' K'] & wb & [Hcp ->]%with_ids_ok & Hrun).
  cbn [fst snd] in Hcp, Hrun.
  apply run_bind_ok in Hrun as (bs & wc & Hdiv & Hrun).
  apply run_lift_ok in Hdiv as [Hdiv ->].
  apply run_bind_ok in Hrun as ([] & wd & Hloop & Hrun).
  injection Hrun as <- <-.
  destruct (seller_send_loop SellerApi.Sent_prices
              (SellerApi.update_price api) bs wa)
    as (r & w' & k & Hrun' & Hk & Htr & Hok).
  rewrite Hloop in Hrun'. injection Hrun' as <- <-.
  rewrite (Hok eq_refl), firstn_all in Htr.
  exists ids, wa, bs. split; [done|].
  apply seller_prices_feed_ok in Hcp as (new & -> & Hnew). simpl in *.
  split; [|split; [by rewrite Htr, Htr0|split]].
  - eapply Forall2_impl; [exact Hnew|]. by intros w p (s & Hs & ->).
  - apply (divide_batches_concat new 1000 bs); [lia|done].
  - eapply Forall_impl;
      [apply (divide_batches_bounds new 1000 bs); [lia|done]|].
    intros b Hb. simpl in Hb. lia.
Qed.

Lemma seller_upload_prices_result_witness :
  ∃ ids wa batches,
    SellerApi.get_offer_ids
      (λ c, SellerApi.on_remote
              (SellerApi.get_product_list (one_page_remote ids_ex feed_ex) c))
      1 (tt, [])
    = Some (Ok ids, wa)
    ∧ Forall2 (λ w p, Seller.price_offer_id p = code w
                      ∧ price_conversion (get w "Цена") = Ok (Seller.price p))
              (filter (λ w, code w ∈ ids) feed_ex)
              [Seller.mk_price "UNKNOWN" "RUB" (PStr "A") "0" "100";
               Seller.mk_price "UNKNOWN" "RUB" (PStr "B") "0" "200"]
    ∧ [SellerApi.Sent_prices
         [Seller.mk_price "UNKNOWN" "RUB" (PStr "A") "0" "100";
          Seller.mk_price "UNKNOWN" "RUB" (PStr "B") "0" "200"]]
      = [] ++ map SellerApi.Sent_prices batches
    ∧ concat batches
      = [Seller.mk_price "UNKNOWN" "RUB" (PStr "A") "0" "100";
         Seller.mk_price "UNKNOWN" "RUB" (PStr "B") "0" "200"]
    ∧ Forall (λ b, (0 < length b ≤ 1000)%nat) batches.
Proof.
  apply (seller_upload_prices_result (one_page_remote ids_ex feed_ex) 1
           feed_ex (tt, [])
           (tt, [SellerApi.Sent_prices
                   [Seller.mk_price "UNKNOWN" "RUB" (PStr "A") "0" "100";
                    Seller.mk_price "UNKNOWN" "RUB" (PStr "B") "0" "200"]])).
  vm_compute. reflexivity.
Defined.

Lemma run_lift_inv {S A} (r x : result A) (s s' : S) :
  Run.lift r s = Some (x, s') → x = r ∧ s' = s.
Proof. unfold Run.lift. by intros [= -> ->]. Qed.

Lemma seller_main_try_trace {St} (api : SellerApi.remote St) fuel
    (w0 w1 : SellerApi.world (St:=St)) r :
  SellerApi.main_try api fuel w0 = Some (r, w1) →
  ∃ sb pb,
    w1.2 = w0.2 ++ map SellerApi.Sent_stocks sb ++ map SellerApi.Sent_prices pb
    ∧ Forall (λ b, (0 < length b ≤ 100)%nat) sb
    ∧ Forall (λ b, (0 < length b ≤ 900)%nat) pb.
Proof.
  unfold SellerApi.main_try. intros H.
  apply run_bind_inv in H as [(e & Hm & ->)|(ids & wa & Hm & H)];
    apply seller_listing_trace in Hm;
    [exists [], []; simpl; by rewrite app_nil_r|].
  apply run_bind_inv in H as [(e & Hd & ->)|(F & wb & Hd & H)];
    apply seller_call_trace in Hd;
    [exists [], []; simpl; rewrite app_nil_r; split; [congruence|done]|].
  apply run_bind_inv in H as [(e & Hc & ->)|([stocks K'] & wc & Hc & H)];
    apply seller_with_ids_inv in Hc as [-> _];
    [exists [], []; simpl; rewrite app_nil_r; split; [congruence|done]|].
  cbn [fst snd] in H.
  apply run_bind_inv in H as [(e & Hv & ->)|(bs & wd & Hv & H)];
    apply run_lift_inv in Hv as [Hv ->];
    [exists [], []; simpl; rewrite app_nil_r; split; [congruence|done]|].
  assert (Forall (λ b, (0 < length b ≤ 100)%nat) bs) as Hbs.
  { eapply Forall_impl;
      [apply (divide_batches_bounds stocks 100 bs); [lia|done]|].
    intros b Hb. simpl in Hb. lia. }
  destruct (seller_send_loop SellerApi.Sent_stocks
              (SellerApi.update_stocks api) bs wb)
    as (r1 & w' & k & Hrun1 & Hk & Htr1 & Hok1).
  apply run_bind_inv in H as [(e & Hl & ->)|([] & we & Hl & H)];
    rewrite Hl in Hrun1; injection Hrun1 as <- <-.
  { exists (take k bs), []. simpl. rewrite app_nil_r.
    split; [congruence|]. split; [by apply Forall_take|done]. }
  rewrite (Hok1 eq_refl), firstn_all in Htr1.
  apply run_bind_inv in H as [(e & Hc & ->)|([prices K''] & wf & Hc & H)];
    apply seller_with_ids_inv in Hc as [-> _];
    [exists bs, []; simpl; rewrite app_nil_r; split; [congruence|done]|].
  cbn [fst snd] in H.
  apply run_bind_inv in H as [(e & Hv' & ->)|(ps & wg & Hv' & H)];
    apply run_lift_inv in Hv' as [Hv' ->];
    [exists bs, []; simpl; rewrite app_nil_r; split; [congruence|done]|].
  assert (Forall (λ b, (0 < length b ≤ 900)%nat) ps) as Hps.
  { eapply Forall_impl;
      [apply (divide_batches_bounds prices 900 ps); [lia|done]|].
    intros b Hb. simpl in Hb. lia. }
  destruct (seller_send_loop SellerApi.Sent_prices
              (SellerApi.update_price api) ps we)
    as (r2 & w'' & j & Hrun2 & Hj & Htr2 & Hok2).
  apply run_bind_inv in H as [(e & Hl' & ->)|([] & wh & Hl' & H)];
    rewrite Hl' in Hrun2; injection Hrun2 as <- <-.
  { exists bs, (take j ps).
    split; [rewrite Htr2, Htr1; rewrite <- app_assoc; congruence|].
    split; [done|by apply Forall_take]. }
  rewrite (Hok2 eq_refl), firstn_all in Htr2.
  injection H as <- <-. exists bs, ps.
  split; [rewrite Htr2, Htr1; rewrite <- app_assoc; congruence|done].
Qed.

(** X14: a run of the [try] statement of [main] in [seller.py] that ends
    never ends with an exception: every error of the listing, the
    download, the conversions and the updates is caught.  What it sends
    and prints is, in this order: stock batches of 1 to 100 entries, then
    price batches of 1 to 900 entries, then at most one message. *)
Theorem seller_main_trace {St} (api : SellerApi.remote St) fuel
    (w0 w1 : SellerApi.world (St:=St)) r :
  SellerApi.main api fuel w0 = Some (r, w1) →
  r = Ok tt
  ∧ ∃ sb pb pr,
      w1.2 = w0.2 ++ map SellerApi.Sent_stocks sb
                  ++ map SellerApi.Sent_prices pb ++ pr
      ∧ Forall (λ b, (0 < length b ≤ 100)%nat) sb
      ∧ Forall (λ b, (0 < length b ≤ 900)%nat) pb
      ∧ (pr = [] ∨ ∃ ev, pr = [ev] ∧ is_print ev).
Proof.
  unfold SellerApi.main, Run.try_except. intros H.
  destruct (Run.bind (SellerApi.main_try api fuel) _ w0)
    as [[[[]|e] w']|] eqn:Hbody; [| |done].
  - injection H as <- <-. split; [done|].
    apply run_bind_ok in Hbody as (a & wa & Htry & [= <-]).
    apply seller_main_try_trace in Htry as (sb & pb & Htr & Hsb & Hpb).
    exists sb, pb, []. rewrite app_nil_r. by repeat split; [..|left].
  - apply run_bind_inv in Hbody as [(e' & Htry & [= <-])|(a & wa & _ & [=])].
    apply seller_main_try_trace in Htry as (sb & pb & Htr & Hsb & Hpb).
    assert (∃ ev, is_print ev
                  ∧ r = Ok tt ∧ w1.2 = w'.2 ++ [ev]) as (ev & Hev & -> & Hw1).
    { unfold SellerApi.emit in H.
      destruct e; injection H as <- <-;
        (eexists; split; [|split; [reflexivity|reflexivity]]);
        unfold is_print; eauto. }
    split; [done|]. exists sb, pb, [ev]. rewrite Hw1, Htr.
    rewrite <- !app_assoc. repeat split; try done. right. eauto.
Qed.

Lemma seller_main_trace_witness :
  Ok tt = Ok tt
  ∧ ∃ sb pb pr,
      [SellerApi.Sent_stocks
         [Seller.mk_stock (PStr "A") 5; Seller.mk_stock (PStr "B") 100;
          Seller.mk_stock (PStr "C") 0]]
      = [] ++ map SellerApi.Sent_stocks sb
           ++ map SellerApi.Sent_prices pb ++ pr
      ∧ Forall (λ b, (0 < length b ≤ 100)%nat) sb
      ∧ Forall (λ b, (0 < length b ≤ 900)%nat) pb
      ∧ (pr = [] ∨ ∃ ev, pr = [ev] ∧ is_print ev).
Proof.
  apply (seller_main_trace (one_page_remote ids_ex feed_ex) 1 (tt, [])
           (tt, [SellerApi.Sent_stocks
                   [Seller.mk_stock (PStr "A") 5; Seller.mk_stock (PStr "B") 100;
                    Seller.mk_stock (PStr "C") 0]])).
  vm_compute. reflexivity.
Defined.

(** ** The run of [market.py] *)

Section MarketSending.
Context {St : Type}.
Variable api : MarketRun.remote St.

Lemma market_listing_loop_trace campaign fuel :
  ∀ c pl (w : MarketRun.world (St:=St)) r w',
    MarketApi.get_offer_ids_loop
      (λ c, MarketRun.on_remote (MarketRun.get_product_list api c campaign))
      fuel c pl w
    = Some (r, w') →
    w'.2 = w.2.
Proof.
  induction fuel as [|fuel IH]; intros c pl w r w'; [done|].
  cbn [MarketApi.get_offer_ids_loop].
  unfold Run.bind, Run.call, Run.lift, MarketRun.on_remote.
  destruct (MarketRun.get_product_list api c campaign w.1) as [[[p|]|e] st];
    simpl; [|by intros [= <- <-]..].
  destruct (MarketApi.offerMappingEntries p) as [its|]; simpl;
    [|by intros [= <- <-]].
  destruct (MarketApi.paging p) as [cur|]; simpl; [|by intros [= <- <-]].
  destruct (negb _).
  - by intros [= <- <-].
  - intros Hrec. by apply IH in Hrec.
Qed.

Lemma market_listing_trace campaign fuel (w : MarketRun.world (St:=St)) r w' :
  MarketApi.get_offer_ids
    (λ c, MarketRun.on_remote (MarketRun.get_product_list api c campaign)) fuel w
  = Some (r, w') →
  w'.2 = w.2.
Proof.
  unfold MarketApi.get_offer_ids, Run.bind.
  destruct (MarketApi.get_offer_ids_loop _ _ _ _ _) as [[[pl|e] w1]|] eqn:Hloop;
    [| |done].
  - unfold Run.lift. intros [= <- <-].
    by apply market_listing_loop_trace in Hloop.
  - intros [= <- <-]. by apply market_listing_loop_trace in Hloop.
Qed.

Lemma market_send_loop {B} (ev : B → MarketRun.event)
    (upd : B → St → result unit * St) batches :
  ∀ w : MarketRun.world (St:=St), ∃ r w' k,
    Run.for_each (λ b, exec MarketRun.emit (ev b) then
                       Run.call (MarketRun.on_remote (upd b))) batches w
    = Some (r, w')
    ∧ (k ≤ length batches)%nat
    ∧ w'.2 = w.2 ++ map ev (take k batches)
    ∧ (r = Ok tt → k = length batches).
Proof.
  set (f := λ b, exec MarketRun.emit (ev b) then
                 Run.call (MarketRun.on_remote (upd b))).
  induction batches as [|b l IH]; intros w.
  - exists (Ok tt), w, 0%nat. simpl. by rewrite app_nil_r.
  - cbn [Run.for_each]. unfold Run.bind at 1.
    assert (f b w = Some (let '(r, st) := upd b w.1 in
                          (r, (st, w.2 ++ [ev b])))) as ->.
    { unfold f, Run.bind, MarketRun.emit, Run.call, MarketRun.on_remote.
      reflexivity. }
    destruct (upd b w.1) as [[[]|e] st].
    + destruct (IH (st, w.2 ++ [ev b])) as (r & w' & k & Hrun & Hk & Htr & Hok).
      exists r, w', (S k). rewrite Hrun. split; [done|].
      split; [simpl; lia|]. split; [|intros Hr; simpl; by rewrite Hok].
      rewrite Htr. simpl. by rewrite <- app_assoc.
    + exists (Raise e), (st, w.2 ++ [ev b]), 1%nat.
      split; [done|]. split; [simpl; lia|]. split; [|done].
      simpl. by destruct l.
Qed.

(** Building the stocks reads the clock and sends nothing; the entries
    are those of [create_stocks] at the time read. *)
Lemma market_create_stocks_now_inv F ids wh (w : MarketRun.world (St:=St)) r w' :
  MarketRun.create_stocks_now api F ids wh w = Some (r, w') →
  w'.2 = w.2
  ∧ ∀ stocks K', r = Ok (stocks, K') →
      ∃ date, Market.create_stocks date F wh ids = (Ok stocks, K').
Proof.
  unfold MarketRun.create_stocks_now, Run.bind, Run.call, MarketRun.with_ids.
  destruct (MarketRun.utcnow api w.1) as [date st].
  destruct (Market.create_stocks date F wh ids) as [[stocks|e] K'] eqn:Hcs;
    simpl; intros [= <- <-]; (split; [done|]).
  - intros ? ? [= <- <-]. by exists date.
  - done.
Qed.



End MarketSending.


(** The test of [not_empty] in [upload_stocks] of [market.py] reads
    [items[0]]; on what [create_stocks] builds it never fails. *)
Lemma market_not_empty_filter date wh M new K :
  Forall2 (emitted (λ id q, Market.mk_stock id wh [Market.mk_item q "FIT" date]))
          M new →
  MarketRun.py_filter
    (λ stock, rbind (py_index (Market.items stock) 0)
                    (λ first, Ok (negb (Market.count first =? 0))))
    (new ++ map (λ id, Market.mk_stock id wh [Market.mk_item 0 "FIT" date]) K)
  = Ok (List.filter
          (λ stock, match Market.items stock with
                    | first :: _ => negb (Market.count first =? 0)
                    | [] => false
                    end) new).
Proof.
  induction 1 as [|w s M new (q & _ & ->) _ IH]; simpl.
  - induction K as [|id K IHK]; [done|]. simpl. by rewrite IHK.
  - rewrite IH. simpl. by destruct (negb (q =? 0)).
Qed.

(** X16: when [upload_stocks] of [market.py] returns [(not_empty,
    stocks)], it has sent exactly [stocks] to the campaign, in order, in
    batches of 1 to 2000 entries; every entry of [not_empty] is an entry of
    [stocks] built from a feed row, with that row's quantity, which is not
    zero. *)
Theorem market_upload_stocks_result {St} (api : MarketRun.remote St) fuel F
    campaign wh (w0 w1 : MarketRun.world (St:=St)) not_empty stocks :
  MarketRun.upload_stocks api fuel F campaign wh w0
  = Some (Ok (not_empty, stocks), w1) →
  (∃ batches,
     w1.2 = w0.2 ++ map (MarketRun.Sent_stocks campaign) batches
     ∧ concat batches = stocks
     ∧ Forall (λ b, (0 < length b ≤ 2000)%nat) batches)
  ∧ (∀ e, e ∈ not_empty →
       e ∈ stocks
       ∧ ∃ w q date, w ∈ F ∧ Market.sku e = code w ∧ stock_of w = Ok q
                     ∧ q ≠ 0 ∧ Market.items e = [Market.mk_item q "FIT" date]).
Proof.
  unfold MarketRun.upload_stocks. intros Hrun.
  apply run_bind_ok in Hrun as (ids & wa & Hids%market_listing_trace & Hrun).
  apply run_bind_ok in Hrun as ([stocks' K'] & wb & Hcs & Hrun).
  apply market_create_stocks_now_inv in Hcs as [Hwb Hcs].
  destruct (Hcs stocks' K' eq_refl) as [date Hdate]. clear Hcs.
  cbn [fst snd] in Hrun.
  apply run_bind_ok in Hrun as (bs & wc & Hdiv & Hrun).
  apply run_lift_ok in Hdiv as [Hdiv ->].
  apply run_bind_ok in Hrun as ([] & wd & Hloop & Hrun).
  apply run_bind_ok in Hrun as (ne & we & Hne & Hrun).
  apply run_lift_ok in Hne as [Hne ->].
  injection Hrun as <- <- <-.
  destruct (market_send_loop (MarketRun.Sent_stocks campaign)
              (λ b, MarketRun.update_stocks api b campaign) bs wb)
    as (r & w' & k & Hrun' & Hk & Htr & Hok).
  rewrite Hloop in Hrun'. injection Hrun' as <- <-.
  rewrite (Hok eq_refl), firstn_all in Htr.
  split.
  - exists bs. split; [by rewrite Htr, Hwb, Hids|].
    split; [apply (divide_batches_concat stocks' 2000 bs); [lia|done]|].
    eapply Forall_impl;
      [apply (divide_batches_bounds stocks' 2000 bs); [lia|done]|].
    intros b Hb. simpl in Hb. lia.
  - apply market_create_stocks_ok in Hdate as (new & Hnew & -> & _).
    rewrite (market_not_empty_filter date wh _ new _ Hnew) in Hne.
    injection Hne as <-.
    intros e [He Hnz]%list_elem_of_In%filter_In. apply list_elem_of_In in He.
    split; [apply elem_of_app; by left|].
    destruct (Forall2_elem_of_r _ _ _ _ Hnew He) as (w & Hw & q & Hq & ->).
    simpl in Hnz. apply negb_true_iff, Z.eqb_neq in Hnz.
    exists w, q, date. repeat split; try done.
    eapply elem_of_sublist; [exact Hw|apply matched_sublist].
Qed.

Lemma market_upload_stocks_result_witness :
  ∃ batches,
    [MarketRun.Sent_stocks (PStr "fbs")
       [Market.mk_stock (PStr "A") (PStr "w1") [Market.mk_item 5 "FIT" "now"];
        Market.mk_stock (PStr "C") (PStr "w1") [Market.mk_item 0 "FIT" "now"]]]
    = [] ++ map (MarketRun.Sent_stocks (PStr "fbs")) batches
    ∧ concat batches
      = [Market.mk_stock (PStr "A") (PStr "w1") [Market.mk_item 5 "FIT" "now"];
         Market.mk_stock (PStr "C") (PStr "w1") [Market.mk_item 0 "FIT" "now"]]
    ∧ Forall (λ b, (0 < length b ≤ 2000)%nat) batches.
Proof.
  apply (proj1 (market_upload_stocks_result
                  (one_page_market [PStr "A"; PStr "C"]
                     [mk_row (PStr "A") (PStr "5") (PStr "100.00 x")])
                  1 [mk_row (PStr "A") (PStr "5") (PStr "100.00 x")]
                  (PStr "fbs") (PStr "w1") (tt, [])
                  (tt, [MarketRun.Sent_stocks (PStr "fbs")
                          [Market.mk_stock (PStr "A") (PStr "w1")
                             [Market.mk_item 5 "FIT" "now"];
                           Market.mk_stock (PStr "C") (PStr "w1")
                             [Market.mk_item 0 "FIT" "now"]]])
                  [Market.mk_stock (PStr "A") (PStr "w1")
                     [Market.mk_item 5 "FIT" "now"]]
                  [Market.mk_stock (PStr "A") (PStr "w1")
                     [Market.mk_item 5 "FIT" "now"];
                   Market.mk_stock (PStr "C") (PStr "w1")
                     [Market.mk_item 0 "FIT" "now"]]
                  ltac:(vm_compute; reflexivity))).
Defined.

(** X17: when [upload_prices] of [market.py] is awaited and returns
    [prices], these are the entries of the feed rows whose code is among
    the freshly listed ids, in feed order, each with the integer read from
    the row's price, and exactly they have been sent to the campaign, in
    order, in batches of 1 to 500 entries. *)
Theorem market_upload_prices_result {St} (api : MarketRun.remote St) fuel F
    campaign (w0 w1 : MarketRun.world (St:=St)) prices :
  MarketRun.upload_prices api fuel F campaign w0 = Some (Ok prices, w1) →
  ∃ ids wa batches,
    MarketApi.get_offer_ids
      (λ c, MarketRun.on_remote (MarketRun.get_product_list api c campaign))
      fuel w0
    = Some (Ok ids, wa)
    ∧ Forall2 (λ w p, Market.id p = code w
                      ∧ ∃ s, price_conversion (get w "Цена") = Ok s
                             ∧ py_int (PStr s)
                               = Ok (Market.value (Market.price p)))
              (filter (λ w, code w ∈ ids) F) prices
    ∧ w1.2 = w0.2 ++ map (MarketRun.Sent_prices campaign) batches
    ∧ concat batches = prices
    ∧ Forall (λ b, (0 < length b ≤ 500)%nat) batches.
Proof.
  unfold MarketRun.upload_prices. intros Hrun.
  apply run_bind_ok in Hrun as (ids & wa & Hids & Hrun).
  pose proof (market_listing_trace api campaign fuel w0 _ _ Hids) as Htr0.
  apply run_bind_ok in Hrun as ([prices' K'] & wb & Hcp & Hrun).
  assert (Market.create_prices F ids = (Ok prices', K') ∧ wb = wa) as [Hcp' ->].
  { unfold MarketRun.with_ids in Hcp.
    destruct (Market.create_prices F ids) as [[a|e] ids']; [|done].
    by injection Hcp as <- <- <-. }
  clear Hcp. cbn [fst snd] in Hrun.
  apply run_bind_ok in Hrun as (bs & wc & Hdiv & Hrun).
  apply run_lift_ok in Hdiv as [Hdiv ->].
  apply run_bind_ok in Hrun as ([] & wd & Hloop & Hrun).
  injection Hrun as <- <-.
  destruct (market_send_loop (MarketRun.Sent_prices campaign)
              (λ b, MarketRun.update_price api b campaign) bs wa)
    as (r & w' & k & Hrun' & Hk & Htr & Hok).
  rewrite Hloop in Hrun'. injection Hrun' as <- <-.
  rewrite (Hok eq_refl), firstn_all in Htr.
  exists ids, wa, bs. split; [done|].
  apply market_prices_feed_ok in Hcp' as (new & -> & Hnew). simpl in *.
  split; [|split; [by rewrite Htr, Htr0|split]].
  - eapply Forall2_impl; [exact Hnew|].
    intros w p (s & v & Hs & Hv & ->). eauto.
  - apply (divide_batches_concat new 500 bs); [lia|done].
  - eapply Forall_impl;
      [apply (divide_batches_bounds new 500 bs); [lia|done]|].
    intros b Hb. simpl in Hb. lia.
Qed.

Lemma market_upload_prices_result_witness :
  ∃ ids wa batches,
    MarketApi.get_offer_ids
      (λ c, MarketRun.on_remote
              (MarketRun.get_product_list
                 (one_page_market [PStr "A"]
                    [mk_row (PStr "A") (PStr "5") (PStr "100.00 x")])
                 c (PStr "fbs")))
      1 (tt, [])
    = Some (Ok ids, wa)
    ∧ Forall2 (λ w p, Market.id p = code w
                      ∧ ∃ s, price_conversion (get w "Цена") = Ok s
                             ∧ py_int (PStr s)
                               = Ok (Market.value (Market.price p)))
              (filter (λ w, code w ∈ ids)
                      [mk_row (PStr "A") (PStr "5") (PStr "100.00 x")])
              [Market.mk_price (PStr "A") (Market.mk_value 100 "RUR")]
    ∧ [MarketRun.Sent_prices (PStr "fbs")
         [Market.mk_price (PStr "A") (Market.mk_value 100 "RUR")]]
      = [] ++ map (MarketRun.Sent_prices (PStr "fbs")) batches
    ∧ concat batches = [Market.mk_price (PStr "A") (Market.mk_value 100 "RUR")]
    ∧ Forall (λ b, (0 < length b ≤ 500)%nat) batches.
Proof.
  apply (market_upload_prices_result
           (one_page_market [PStr "A"]
              [mk_row (PStr "A") (PStr "5") (PStr "100.00 x")])
           1 _ (PStr "fbs") (tt, [])
           (tt, [MarketRun.Sent_prices (PStr "fbs")
                   [Market.mk_price (PStr "A") (Market.mk_value 100 "RUR")]])).
  vm_compute. reflexivity.
Defined.

(** ** Malformed listings *)

Lemma shop_skus_missing_offer pl acc :
  (∃ product, product ∈ pl ∧ MarketApi.offer product = None) →
  MarketApi.shop_skus pl acc = Raise AttributeError.
Proof.
  revert acc. induction pl as [|p pl IH]; intros acc (x & Hx & Hnone);
    [by apply elem_of_nil in Hx|].
  cbn [MarketApi.shop_skus]. destruct (MarketApi.offer p) as [o|] eqn:Ho;
    [|done]. simpl.
  apply elem_of_cons in Hx as [->|Hx]; [congruence|]. apply IH. eauto.
Qed.

(** X18: in [market.py], one listed entry without an ["offer"] object
    makes [get_offer_ids] raise [AttributeError] and return no id at all,
    and this only after every page has been fetched. *)
Theorem market_get_offer_ids_missing_offer {S}
    (h : pyval → S → result (option MarketApi.page) * S) s pgs s' fuel :
  market_pages h (PStr "") s pgs s' →
  (∃ product, product ∈ concat pgs ∧ MarketApi.offer product = None) →
  (length pgs ≤ fuel)%nat →
  MarketApi.get_offer_ids h fuel s = Some (Raise AttributeError, s').
Proof.
  intros Hpgs Hbad Hfuel. unfold MarketApi.get_offer_ids, Run.bind.
  rewrite (market_loop_pages h _ _ _ _ Hpgs fuel [] Hfuel). simpl.
  unfold Run.lift. by rewrite shop_skus_missing_offer.
Qed.

Lemma market_get_offer_ids_missing_offer_witness :
  MarketApi.get_offer_ids
    (λ (c : pyval) (st : unit),
       (Ok (Some (MarketApi.mk_page
                    (Some [MarketApi.mk_entry (Some (<["shopSku" := PStr "A"]> ∅));
                           MarketApi.mk_entry None])
                    (Some ∅))), st))
    1 tt
  = Some (Raise AttributeError, tt).
Proof.
  apply (market_get_offer_ids_missing_offer _ tt
           [[MarketApi.mk_entry (Some (<["shopSku" := PStr "A"]> ∅));
             MarketApi.mk_entry None]] tt 1).
  - eapply market_pages_last; reflexivity.
  - exists (MarketApi.mk_entry None). split; [|done].
    simpl. apply elem_of_cons. right. by left.
  - simpl. lia.
Defined.
